(** * Source-to-AST: the annotation pipeline of [annotate.py]

    A shallow embedding of the three pure parts of [annotate.py]:
    - the explanation synthesizer ([HardcodedExplainer]),
    - the filter profiles ([should_include_node]),
    - the correlation engine ([collect_line_annotations]),
    followed by the properties of each.

    Conventions of the embedding.
    - A Python [str] is a [string]: the sequence of the bytes of its UTF-8
      encoding.  Byte-wise lexicographic order on UTF-8 is code point
      order, which is the order of Python's [sorted] on [str].
      [str.strip] removes every character for which [str.isspace]
      holds, those of one byte and those of two or three bytes alike.
      [str.lower] is modelled on the ASCII range: [py_lower] changes no
      byte above 127.  Outside ASCII, [str.lower] makes an ASCII letter
      of two characters only: of the Kelvin sign a "k", which is in none
      of the texts [get_detailed_explanation] looks for, and of the
      dotted capital I an "i" followed by a combining dot, where each of
      these texts has "in".  It makes and removes no whitespace.  The
      tests of [get_detailed_explanation] therefore come out on
      [py_lower] as they do on [str.lower].
    - The JSON document is the value [json.loads] returns.  Numbers are
      the integers ([JInt]); documents with fractional numbers are not
      covered.
    - A raised exception is the result [Raise].  The interpreter's
      recursion limit is not modelled: a result [Ok] of the engine is
      what the code returns on a document that the interpreter can walk
      within that limit. *)

From Stdlib Require Import ZArith Ascii Sorting.Sorted Sorting.Permutation.
From stdpp Require Import gmap strings list fin_maps pretty sorting.

Local Open Scope Z_scope.

(** ** Python strings *)

Module PyStr.

(** [sub in s] *)
Fixpoint contains (sub s : string) : bool :=
  String.prefix sub s ||
  match s with
  | EmptyString => false
  | String _ s' => contains sub s'
  end.

(** [s.startswith(p)] *)
Definition startswith (p s : string) : bool := String.prefix p s.

(** [s.endswith(suf)]: some suffix of [s] is [suf]. *)
Fixpoint endswith (suf s : string) : bool :=
  String.eqb s suf ||
  match s with
  | EmptyString => false
  | String _ s' => endswith suf s'
  end.

(** The characters for which [str.isspace] holds, on the UTF-8
    encoding.  Those of one byte: tab, line feed, vertical tab, form
    feed, carriage return, the four separators 28..31 and the space. *)
Definition is_space (c : ascii) : bool :=
  let n := nat_of_ascii c in
  ((9 <=? n) && (n <=? 13) || (28 <=? n) && (n <=? 32))%nat.

(** Those of two bytes: U+0085 (C2 85) and U+00A0 (C2 A0). *)
Definition is_space2 (c d : ascii) : bool :=
  let a := N_of_ascii c in
  let b := N_of_ascii d in
  ((a =? 0xC2) && ((b =? 0x85) || (b =? 0xA0)))%N.

(** Those of three bytes: U+1680 (E1 9A 80), U+2000..U+200A
    (E2 80 80..8A), U+2028 and U+2029 (E2 80 A8, A9), U+202F (E2 80 AF),
    U+205F (E2 81 9F) and U+3000 (E3 80 80). *)
Definition is_space3 (c d e : ascii) : bool :=
  let a := N_of_ascii c in
  let b := N_of_ascii d in
  let x := N_of_ascii e in
  ((a =? 0xE1) && (b =? 0x9A) && (x =? 0x80)
   || (a =? 0xE2) && (b =? 0x80)
      && ((0x80 <=? x) && (x <=? 0x8A) || (x =? 0xA8) || (x =? 0xA9) || (x =? 0xAF))
   || (a =? 0xE2) && (b =? 0x81) && (x =? 0x9F)
   || (a =? 0xE3) && (b =? 0x80) && (x =? 0x80))%N.

(** The encoding of one whitespace character. *)
Inductive space_char : string -> Prop :=
  | space_char1 c : is_space c = true -> space_char (String c "")
  | space_char2 c d : is_space2 c d = true -> space_char (String c (String d ""))
  | space_char3 c d e :
      is_space3 c d e = true -> space_char (String c (String d (String e ""))).

Definition lower_ascii (c : ascii) : ascii :=
  let n := nat_of_ascii c in
  if ((65 <=? n) && (n <=? 90))%nat then ascii_of_nat (n + 32) else c.

(** [s.lower()] *)
Fixpoint py_lower (s : string) : string :=
  match s with
  | EmptyString => EmptyString
  | String c s' => String (lower_ascii c) (py_lower s')
  end.

(** [s.lstrip()]: the whitespace characters at the start are dropped,
    of one, two or three bytes each. *)
Fixpoint lstrip (s : string) : string :=
  match s with
  | EmptyString => EmptyString
  | String c s1 =>
      if is_space c then lstrip s1
      else
        match s1 with
        | EmptyString => s
        | String d s2 =>
            if is_space2 c d then lstrip s2
            else
              match s2 with
              | EmptyString => s
              | String e s3 => if is_space3 c d e then lstrip s3 else s
              end
        end
  end.

(** [s.rstrip()]: the text is cut at the first place from which
    whitespace characters alone follow.  No byte inside a character of
    several bytes starts a whitespace character, so the cut falls
    between two characters. *)
Fixpoint rstrip (s : string) : string :=
  match s with
  | EmptyString => EmptyString
  | String c s' =>
      if String.eqb (lstrip s) EmptyString then EmptyString
      else String c (rstrip s')
  end.

(** [s.strip()] *)
Definition py_strip (s : string) : string := rstrip (lstrip s).

(** U+00A0, the no-break space, and U+2003, the em space. *)
Definition no_break_space : string := String "194" (String "160" EmptyString).
Definition em_space : string :=
  String "226" (String "128" (String "131" EmptyString)).

(** [sep.join(l)] *)
Definition join (sep : string) (l : list string) : string := String.concat sep l.

(** [x in l] on a list of strings *)
Definition mem (x : string) (l : list string) : bool := existsb (String.eqb x) l.

(** [sorted(l)] on a list of strings: insertion into the sorted tail.
    Equal strings are indistinguishable, so the result is the one of
    any sorting algorithm. *)
Fixpoint insert_sorted (x : string) (l : list string) : list string :=
  match l with
  | [] => [x]
  | y :: l' => if String.leb x y then x :: l else y :: insert_sorted x l'
  end.

Fixpoint sorted (l : list string) : list string :=
  match l with
  | [] => []
  | x :: l' => insert_sorted x (sorted l')
  end.

End PyStr.

(** ** The explanation synthesizer: class [HardcodedExplainer] *)

Module Explainer.
Import PyStr.

(** [_build_explanation_map]: tag to one-line description. *)
Definition explanations : list (string * string) :=
  [ ("FunctionDecl", "declares a function with its signature and body");
    ("CXXMethodDecl", "declares a class method or member function");
    ("CXXConstructorDecl", "declares a class constructor");
    ("CXXDestructorDecl", "declares a class destructor");
    ("CXXRecordDecl", "declares a class, struct, or union type");
    ("ClassTemplateDecl", "declares a class template");
    ("VarDecl", "declares a variable with optional initialization");
    ("FieldDecl", "declares a class member variable or field");
    ("ParmVarDecl", "declares a function parameter");
    ("NamespaceDecl", "declares or opens a namespace");
    ("UsingDecl", "brings a name from another namespace into scope");
    ("TypedefDecl", "creates a type alias using typedef");
    ("EnumDecl", "declares an enumeration type");
    ("EnumConstantDecl", "declares an enumeration constant");
    ("CompoundStmt", "represents a block of statements enclosed in braces {}");
    ("IfStmt", "represents an if conditional statement");
    ("ForStmt", "represents a traditional for loop");
    ("WhileStmt", "represents a while loop");
    ("CXXForRangeStmt", "represents a range-based for loop (C++11)");
    ("SwitchStmt", "represents a switch statement for multi-way branching");
    ("CaseStmt", "represents a case label in a switch statement");
    ("DefaultStmt", "represents the default case in a switch statement");
    ("ReturnStmt", "returns a value from a function");
    ("BreakStmt", "breaks out of a loop or switch statement");
    ("ContinueStmt", "continues to the next iteration of a loop");
    ("DeclStmt", "represents a declaration statement");
    ("ExprStmt", "represents an expression used as a statement");
    ("NullStmt", "represents an empty statement (just a semicolon)");
    ("DoStmt", "represents a do-while loop");
    ("GotoStmt", "represents a goto statement");
    ("LabelStmt", "represents a labeled statement");
    ("BinaryOperator", "performs a binary operation (e.g., +, -, ==, &&)");
    ("UnaryOperator", "performs a unary operation (e.g., ++, --, !, ~)");
    ("ConditionalOperator", "represents the ternary operator (condition ? true : false)");
    ("CallExpr", "represents a function call");
    ("CXXOperatorCallExpr", "represents an overloaded operator call in C++");
    ("CXXMemberCallExpr", "represents a call to a class member function");
    ("MemberExpr", "accesses a member of a struct/class (e.g., obj.member)");
    ("ArraySubscriptExpr", "accesses an array element using [] operator");
    ("DeclRefExpr", "references a previously declared variable or function");
    ("IntegerLiteral", "represents an integer constant (e.g., 42, 0xFF)");
    ("FloatingLiteral", "represents a floating-point constant (e.g., 3.14)");
    ("StringLiteral", String.append "represents a string literal (e.g., "
       (String "034" (String.append "hello" (String "034" ")"))));
    ("CharacterLiteral", "represents a character literal (e.g., 'a')");
    ("CXXBoolLiteralExpr", "represents a boolean literal (true or false)");
    ("CXXNullPtrLiteralExpr", "represents a nullptr literal");
    ("AssignmentOperator", "assigns a value to a variable (=, +=, -=, etc.)");
    ("CompoundAssignOperator", "performs compound assignment (+=, -=, *=, etc.)");
    ("CXXNewExpr", "allocates memory using the new operator");
    ("CXXDeleteExpr", "deallocates memory using the delete operator");
    ("CXXThisExpr", "represents the 'this' pointer in a class method");
    ("CXXThrowExpr", "throws an exception");
    ("CXXTryStmt", "represents a try-catch block for exception handling");
    ("CXXCatchStmt", "represents a catch block in exception handling");
    ("CXXConstructExpr", "constructs an object using a constructor");
    ("CXXTemporaryObjectExpr", "creates a temporary object");
    ("CXXFunctionalCastExpr", "performs a functional-style cast");
    ("CXXStaticCastExpr", "performs a static_cast");
    ("CXXDynamicCastExpr", "performs a dynamic_cast");
    ("CXXReinterpretCastExpr", "performs a reinterpret_cast");
    ("CXXConstCastExpr", "performs a const_cast");
    ("ImplicitCastExpr", "performs an implicit type conversion");
    ("CStyleCastExpr", "performs a C-style cast");
    ("ParenExpr", "represents parenthesized expression");
    ("SizeOfExpr", "calculates the size of a type or expression");
    ("MaterializeTemporaryExpr", "materializes a temporary object");
    ("ExprWithCleanups", "manages cleanup of temporary objects");
    ("CXXBindTemporaryExpr", "binds a temporary object for cleanup");
    ("AlignedAttr", "specifies memory alignment requirements");
    ("VisibilityAttr", "controls symbol visibility");
    ("DeprecatedAttr", "marks a declaration as deprecated");
    ("NoReturnAttr", "indicates a function never returns");
    ("TemplateTypeParmDecl", "declares a template type parameter");
    ("NonTypeTemplateParmDecl", "declares a non-type template parameter");
    ("TemplateTemplateParmDecl", "declares a template template parameter");
    ("ClassTemplateSpecializationDecl", "specializes a class template");
    ("FunctionTemplateDecl", "declares a function template");
    ("LambdaExpr", "defines a lambda expression (anonymous function)");
    ("CXXDefaultArgExpr", "represents a default argument in function call");
    ("InitListExpr", "represents brace-enclosed initializer list");
    ("DesignatedInitExpr", "represents designated initializer (C99/C++20)");
    ("CompoundLiteralExpr", "represents a compound literal");
    ("MacroExpansion", "represents an expanded macro");
    ("InclusionDirective", "represents a #include directive") ].

(** [_build_pattern_explanations]: required tags and canned text, in
    declaration order. *)
Definition patterns : list (list string * string) :=
  [ (["FunctionDecl"; "CompoundStmt"], "defines a function with a body containing statements");
    (["FunctionDecl"; "ParmVarDecl"], "defines a function that takes parameters");
    (["CallExpr"; "DeclRefExpr"], "calls a previously declared function");
    (["VarDecl"; "IntegerLiteral"], "declares an integer variable with a literal value");
    (["VarDecl"; "CallExpr"], "declares a variable initialized by a function call");
    (["AssignmentOperator"; "DeclRefExpr"], "assigns a value to an existing variable");
    (["IfStmt"; "BinaryOperator"], "conditional statement with a comparison");
    (["ForStmt"; "BinaryOperator"], "for loop with a comparison condition");
    (["WhileStmt"; "BinaryOperator"], "while loop with a comparison condition");
    (["CXXRecordDecl"; "CXXMethodDecl"], "defines a class with member methods");
    (["CXXRecordDecl"; "FieldDecl"], "defines a class with member variables");
    (["CXXConstructorDecl"; "MemberExpr"], "constructor that initializes member variables");
    (["BinaryOperator"; "DeclRefExpr"], "performs an operation on variables");
    (["CallExpr"; "MemberExpr"], "calls a method on an object");
    (["ArraySubscriptExpr"; "DeclRefExpr"], "accesses an array element");
    (["CXXNewExpr"; "CXXConstructExpr"], "dynamically creates an object");
    (["CXXDeleteExpr"; "DeclRefExpr"], "deallocates a dynamically allocated object") ].

(** [self.explanations[node]] when [node in self.explanations]. *)
Fixpoint lookup_explanation (node : string) (tbl : list (string * string)) : option string :=
  match tbl with
  | [] => None
  | (k, v) :: tbl' => if String.eqb node k then Some v else lookup_explanation node tbl'
  end.

(** The body of the fallback loop: the catalog description of a known
    tag, the generic text for any other. *)
Definition describe (node : string) : string :=
  match lookup_explanation node explanations with
  | Some e => e
  | None => "AST node: " +:+ node
  end.

(** [all(node in sorted_nodes for node in pattern_nodes)] *)
Definition pattern_matches (sorted_nodes pattern_nodes : list string) : bool :=
  forallb (fun node => mem node sorted_nodes) pattern_nodes.

(** The pattern loop: the text of the first rule that matches. *)
Fixpoint match_patterns (sorted_nodes : list string)
    (rules : list (list string * string)) : option string :=
  match rules with
  | [] => None
  | (pattern_nodes, explanation) :: rules' =>
      if pattern_matches sorted_nodes pattern_nodes then Some explanation
      else match_patterns sorted_nodes rules'
  end.

(** The three-way combination that ends [explain_ast_nodes]. *)
Definition combine (explanations : list string) : string :=
  match explanations with
  | [e] => e
  | [e0; e1] => e0 +:+ " and " +:+ e1
  | _ => "combines " +:+ join ", " (removelast explanations)
         +:+ ", and " +:+ List.last explanations ""
  end.

Definition explain_ast_nodes (ast_nodes : list string) (source_line : string) : string :=
  match ast_nodes with
  | [] => ""
  | _ =>
      let sorted_nodes := sorted ast_nodes in
      match match_patterns sorted_nodes patterns with
      | Some explanation => explanation
      | None => combine (map describe sorted_nodes)
      end
  end.

Definition get_detailed_explanation (ast_nodes : list string) (source_line : string) : string :=
  let explanation := explain_ast_nodes ast_nodes source_line in
  let line_lower := py_strip (py_lower source_line) in
  if contains "main(" line_lower then
    explanation +:+ " (this is the program's entry point)"
  else if startswith "class " line_lower || startswith "struct " line_lower then
    explanation +:+ " (defining a new data type)"
  else if startswith "#include" line_lower then
    explanation +:+ " (including external code)"
  else if contains "cout" line_lower || contains "printf" line_lower then
    explanation +:+ " (performing output operation)"
  else if contains "cin" line_lower || contains "scanf" line_lower then
    explanation +:+ " (performing input operation)"
  else if endswith ";" line_lower && contains "=" line_lower
          && negb (startswith "for" (py_strip line_lower)) then
    explanation +:+ " (assignment or initialization)"
  else explanation.

End Explainer.


(** ** Python values and exceptions *)

(** The value [json.loads] returns.  A dict is the list of its items in
    insertion order; the parser leaves no key twice. *)
#[warnings="-register-all"]
Inductive json : Type :=
  | JNull
  | JBool (b : bool)
  | JInt (n : Z)
  | JStr (s : string)
  | JList (items : list json)
  | JDict (fields : list (string * json)).

(** Induction on a document, with the hypothesis for every element of a
    list and every value of a dict. *)
Section JsonInduction.
Variable P : json -> Prop.
Hypothesis Hnull : P JNull.
Hypothesis Hbool : forall b, P (JBool b).
Hypothesis Hint : forall n, P (JInt n).
Hypothesis Hstr : forall s, P (JStr s).
Hypothesis Hlist : forall items, Forall P items -> P (JList items).
Hypothesis Hdict : forall fields, Forall (fun kv => P (snd kv)) fields -> P (JDict fields).

Fixpoint json_induction (v : json) : P v :=
  match v with
  | JNull => Hnull
  | JBool b => Hbool b
  | JInt n => Hint n
  | JStr s => Hstr s
  | JList items =>
      Hlist items
        ((fix all (l : list json) : Forall P l :=
            match l with
            | [] => @List.Forall_nil json P
            | x :: l' => @List.Forall_cons json P x l' (json_induction x) (all l')
            end) items)
  | JDict fields =>
      Hdict fields
        ((fix all (d : list (string * json)) : Forall (fun kv => P (snd kv)) d :=
            match d with
            | [] => @List.Forall_nil (string * json) (fun kv => P (snd kv))
            | kv :: d' =>
                @List.Forall_cons (string * json) (fun kv => P (snd kv)) kv d'
                  (json_induction (snd kv)) (all d')
            end) fields)
  end.

End JsonInduction.

Inductive exn : Type := TypeError.

Inductive result (A : Type) : Type :=
  | Ok (a : A)
  | Raise (e : exn).
Arguments Ok {A} a.
Arguments Raise {A} e.

Definition bind {A B : Type} (c : result A) (k : A -> result B) : result B :=
  match c with
  | Ok a => k a
  | Raise e => Raise e
  end.

Notation "'do' x <- c1 ; c2" := (bind c1 (fun x => c2))
  (at level 10, x name, c1 at level 100, c2 at level 200).

Module Py.

(** [bool(v)] *)
Definition truthy (v : json) : bool :=
  match v with
  | JNull => false
  | JBool b => b
  | JInt n => negb (n =? 0)
  | JStr s => negb (String.eqb s "")
  | JList items => match items with [] => false | _ => true end
  | JDict fields => match fields with [] => false | _ => true end
  end.

(** [d.get(key)], [None] of Coq standing for a missing key. *)
Fixpoint dict_get (key : string) (fields : list (string * json)) : option json :=
  match fields with
  | [] => None
  | (k, v) :: fields' => if String.eqb key k then Some v else dict_get key fields'
  end.

(** [d.get(key, dflt)]; [d.get(key)] is [get_or key JNull d]. *)
Definition get_or (key : string) (dflt : json) (fields : list (string * json)) : json :=
  match dict_get key fields with
  | Some v => v
  | None => dflt
  end.

(** [d.values()] *)
Definition values (fields : list (string * json)) : list json := map snd fields.

(** [isinstance(v, int)], with the integer [v] stands for: [bool] is a
    subclass of [int], [True] is 1 and [False] is 0. *)
Definition as_int (v : json) : option Z :=
  match v with
  | JInt n => Some n
  | JBool b => Some (Z.b2z b)
  | _ => None
  end.

(** [a == b].  Lists compare element by element; dicts have the same
    number of items and every item of the left one is in the right one
    with an equal value. *)
Fixpoint py_eq (a b : json) {struct a} : bool :=
  match a, b with
  | JNull, JNull => true
  | JBool x, JBool y => Bool.eqb x y
  | JBool x, JInt n => Z.b2z x =? n
  | JInt m, JBool y => m =? Z.b2z y
  | JInt m, JInt n => m =? n
  | JStr s, JStr t => String.eqb s t
  | JList l, JList l' =>
      (fix all2 (l : list json) (l' : list json) {struct l} : bool :=
         match l, l' with
         | [], [] => true
         | x :: xs, y :: ys => py_eq x y && all2 xs ys
         | _, _ => false
         end) l l'
  | JDict d, JDict d' =>
      (length d =? length d')%nat &&
      (fix items (d : list (string * json)) {struct d} : bool :=
         match d with
         | [] => true
         | (k, v) :: rest =>
             match dict_get k d' with
             | Some v' => py_eq v v'
             | None => false
             end && items rest
         end) d
  | _, _ => false
  end.

End Py.

(** ** [os.path] *)

(** The three functions of [os.path] the engine calls.  They depend on
    the platform and on the working directory of the process. *)
Class OsPath : Type := {
  isabs : string -> bool;
  abspath : string -> string;
  basename : string -> string
}.

(** The POSIX flavour ([posixpath]) for a process whose working directory
    is [cwd]. *)
Module Posix.
Import PyStr.

(** [s.split(sep)] for a one-character separator. *)
Fixpoint split (sep : ascii) (s : string) : list string :=
  match s with
  | EmptyString => [EmptyString]
  | String c s' =>
      let r := split sep s' in
      if Ascii.eqb c sep then EmptyString :: r
      else match r with
           | [] => [String c EmptyString]
           | h :: t => String c h :: t
           end
  end.

Definition isabs (s : string) : bool := startswith "/" s.

Definition basename (p : string) : string := List.last (split "/" p) "".

Definition join (a b : string) : string :=
  if startswith "/" b then b
  else if String.eqb a "" || endswith "/" a then a +:+ b
  else a +:+ "/" +:+ b.

Definition normpath (path : string) : string :=
  if String.eqb path "" then "."
  else
    let initial_slashes : nat :=
      if startswith "/" path then
        if startswith "//" path && negb (startswith "///" path) then 2%nat else 1%nat
      else 0%nat in
    let step (new_comps : list string) (comp : string) : list string :=
      if String.eqb comp "" || String.eqb comp "." then new_comps
      else if negb (String.eqb comp "..")
              || (Nat.eqb initial_slashes 0 && match new_comps with [] => true | _ => false end)
              || String.eqb (List.last new_comps "") ".."
      then new_comps ++ [comp]
      else removelast new_comps in
    let new_comps := foldl step [] (split "/" path) in
    let path := PyStr.join "/" new_comps in
    let path := String.concat "" (repeat "/" initial_slashes) +:+ path in
    if String.eqb path "" then "." else path.

Definition abspath (cwd path : string) : string :=
  normpath (if isabs path then path else join cwd path).

Definition os_path (cwd : string) : OsPath :=
  Build_OsPath isabs (abspath cwd) basename.

End Posix.

(** ** Filter profiles: [should_include_node] *)

Module Filter.
Import PyStr.

Definition important_nodes : list string :=
  [ "FunctionDecl"; "CXXMethodDecl"; "CXXConstructorDecl"; "CXXDestructorDecl";
    "CXXRecordDecl"; "ClassTemplateDecl"; "VarDecl"; "FieldDecl";
    "IfStmt"; "ForStmt"; "WhileStmt"; "CXXForRangeStmt"; "SwitchStmt";
    "ReturnStmt"; "BreakStmt"; "ContinueStmt"; "CompoundStmt" ].

Definition noise_nodes : list string :=
  [ "MaterializeTemporaryExpr"; "CXXBindTemporaryExpr"; "ExprWithCleanups";
    "ParenExpr"; "AlignedAttr"; "VisibilityAttr" ].

Definition decl_nodes : list string :=
  [ "FunctionDecl"; "CXXMethodDecl"; "CXXConstructorDecl"; "CXXDestructorDecl";
    "CXXRecordDecl"; "ClassTemplateDecl"; "VarDecl"; "FieldDecl";
    "ParmVarDecl"; "NamespaceDecl"; "UsingDecl"; "TypedefDecl" ].

Definition stmt_nodes : list string :=
  [ "IfStmt"; "ForStmt"; "WhileStmt"; "CXXForRangeStmt"; "SwitchStmt";
    "ReturnStmt"; "BreakStmt"; "ContinueStmt"; "CompoundStmt";
    "DeclStmt"; "ExprStmt"; "NullStmt" ].

(** [kind in s] for a set [s] of strings: the kind is hashed first, so
    a list or a dict raises; a hashable value that is not a string is
    equal to no member. *)
Definition in_set (kind : json) (s : list string) : result bool :=
  match kind with
  | JStr k => Ok (mem k s)
  | JNull | JBool _ | JInt _ => Ok false
  | JList _ | JDict _ => Raise TypeError
  end.

Definition should_include_node (kind : json) (filter_config : string) : result bool :=
  if String.eqb filter_config "minimal" then
    in_set kind important_nodes
  else if String.eqb filter_config "clean" then
    do b <- in_set kind noise_nodes; Ok (negb b)
  else if String.eqb filter_config "declarations" then
    in_set kind decl_nodes
  else if String.eqb filter_config "statements" then
    in_set kind stmt_nodes
  else Ok true.

End Filter.

(** ** The correlation engine: [collect_line_annotations] *)

(** What a set of node kinds holds: the hashable values, up to the
    equality of Python ([True] is the number 1). *)
Inductive tag : Type :=
  | TNone
  | TNum (n : Z)
  | TStr (s : string).

Global Instance tag_eq_dec : EqDecision tag.
Proof. solve_decision. Defined.

Global Instance tag_countable : Countable tag.
Proof.
  refine (inj_countable'
    (fun t => match t with
              | TNone => inl ()
              | TNum n => inr (inl n)
              | TStr s => inr (inr s)
              end)
    (fun x => match x with
              | inl _ => TNone
              | inr (inl n) => TNum n
              | inr (inr s) => TStr s
              end) _).
  intros []; reflexivity.
Defined.

Module Engine.
Import Py Filter.

(** The element a set stores for a value; a list or a dict is not
    hashable. *)
Definition hash_key (v : json) : result tag :=
  match v with
  | JNull => Ok TNone
  | JBool b => Ok (TNum (Z.b2z b))
  | JInt n => Ok (TNum n)
  | JStr s => Ok (TStr s)
  | JList _ | JDict _ => Raise TypeError
  end.

(** The value a stored element stands for. *)
Definition tag_value (t : tag) : json :=
  match t with
  | TNone => JNull
  | TNum n => JInt n
  | TStr s => JStr s
  end.

(** [line_map.get(line, set())] *)
Definition tags_at (line_map : gmap Z (gset tag)) (line : Z) : gset tag :=
  default ∅ (line_map !! line).

(** [line_map.setdefault(line, set()).add(node_kind)] *)
Definition add_kind (line : Z) (node_kind : json) (line_map : gmap Z (gset tag))
    : result (gmap Z (gset tag)) :=
  do t <- hash_key node_kind;
  Ok (<[line := tags_at line_map line ∪ {[t]}]> line_map).

Section WithTarget.
Context `{OsPath}.
Variable target_file_path : string.
Variable filter_config : string.

(** The two lines shared by both branches of [process_location]. *)
Definition register (line : Z) (node_kind : json) (line_map : gmap Z (gset tag))
    : result (gmap Z (gset tag)) :=
  do b <- should_include_node node_kind filter_config;
  if b then add_kind line node_kind line_map else Ok line_map.

Definition process_location (loc_info node_kind : json) (line_map : gmap Z (gset tag))
    : result (gmap Z (gset tag)) :=
  match loc_info with
  | JDict ((_ :: _) as fields) =>
      let file_path := get_or "file" (JStr "") fields in
      let line := get_or "line" JNull fields in
      match as_int line with
      | Some n =>
          if truthy line && truthy node_kind then
            let target_abs := abspath target_file_path in
            if negb (truthy file_path) then register n node_kind line_map
            else
              match file_path with
              | JStr f =>
                  let file_abs := if isabs f then abspath f else f in
                  if String.eqb file_abs target_abs
                     || String.eqb (basename file_abs) (basename target_abs)
                  then register n node_kind line_map
                  else Ok line_map
              | _ => Raise TypeError
              end
          else Ok line_map
      | None => Ok line_map
      end
  | _ => Ok line_map
  end.

(** The block on [node.get("loc")]. *)
Definition process_loc (node : list (string * json)) (line_map : gmap Z (gset tag))
    : result (gmap Z (gset tag)) :=
  let kind := get_or "kind" JNull node in
  let loc := get_or "loc" JNull node in
  if truthy loc then process_location loc kind line_map else Ok line_map.

(** The block on [node.get("range")]. *)
Definition process_range (node : list (string * json)) (line_map : gmap Z (gset tag))
    : result (gmap Z (gset tag)) :=
  let kind := get_or "kind" JNull node in
  match get_or "range" JNull node with
  | JDict ((_ :: _) as range_info) =>
      let begin := get_or "begin" JNull range_info in
      let end_ := get_or "end" JNull range_info in
      do line_map <- (if truthy begin then process_location begin kind line_map
                      else Ok line_map);
      if truthy end_ && negb (py_eq end_ begin)
      then process_location end_ kind line_map
      else Ok line_map
  | _ => Ok line_map
  end.

(** What a dict registers for itself, before its values are visited. *)
Definition process_node (node : list (string * json)) (line_map : gmap Z (gset tag))
    : result (gmap Z (gset tag)) :=
  do line_map <- process_loc node line_map;
  process_range node line_map.

Fixpoint collect_line_annotations (node : json) (line_map : gmap Z (gset tag))
    {struct node} : result (gmap Z (gset tag)) :=
  match node with
  | JDict fields =>
      do line_map <- process_node fields line_map;
      (fix each_value (fs : list (string * json)) (line_map : gmap Z (gset tag))
           {struct fs} : result (gmap Z (gset tag)) :=
         match fs with
         | [] => Ok line_map
         | (_, value) :: fs' =>
             do line_map <- collect_line_annotations value line_map;
             each_value fs' line_map
         end) fields line_map
  | JList items =>
      (fix each_item (l : list json) (line_map : gmap Z (gset tag))
           {struct l} : result (gmap Z (gset tag)) :=
         match l with
         | [] => Ok line_map
         | item :: l' =>
             do line_map <- collect_line_annotations item line_map;
             each_item l' line_map
         end) items line_map
  | _ => Ok line_map
  end.

End WithTarget.

End Engine.

(** ** Vocabulary for the properties of the engine *)

Module Locations.
Import Py Engine.

(** The integer under the key "line" of a location, when it has one. *)
Definition line_of (loc_info : json) : option Z :=
  match loc_info with
  | JDict fields => as_int (get_or "line" JNull fields)
  | _ => None
  end.

(** The fields of a node the engine reads. *)
Definition kind_of (node : list (string * json)) : json := get_or "kind" JNull node.
Definition loc_of (node : list (string * json)) : json := get_or "loc" JNull node.
Definition begin_of (node : list (string * json)) : json :=
  match get_or "range" JNull node with
  | JDict range_info => get_or "begin" JNull range_info
  | _ => JNull
  end.
Definition end_of (node : list (string * json)) : json :=
  match get_or "range" JNull node with
  | JDict range_info => get_or "end" JNull range_info
  | _ => JNull
  end.

(** The map after [kind] is added to the set of [line]. *)
Definition add_tag (line : Z) (kind : tag) (line_map : gmap Z (gset tag))
    : gmap Z (gset tag) :=
  <[line := tags_at line_map line ∪ {[kind]}]> line_map.

(** The map after a sequence of additions. *)
Definition add_all (line_map : gmap Z (gset tag)) (entries : list (Z * tag))
    : gmap Z (gset tag) :=
  foldl (fun m e => add_tag (fst e) (snd e) m) line_map entries.

Section WithTarget.
Context `{OsPath}.
Variable target_file_path : string.

(** A file name denotes the target: the two paths are equal, the one of
    the location made absolute as the engine does it, or failing that
    their last components are equal. *)
Definition denotes_target (file_path : string) : bool :=
  let target_abs := abspath target_file_path in
  let file_abs := if isabs file_path then abspath file_path else file_path in
  String.eqb file_abs target_abs
  || String.eqb (basename file_abs) (basename target_abs).

(** The location is a non-empty dict whose line is the integer [line],
    not zero, and whose file is absent, empty or a name that denotes the
    target. *)
Definition resolves (loc_info : json) (line : Z) : Prop :=
  exists fields,
    loc_info = JDict fields /\
    as_int (get_or "line" JNull fields) = Some line /\ line <> 0 /\
    (truthy (get_or "file" (JStr "") fields) = false \/
     exists f, get_or "file" (JStr "") fields = JStr f /\ f <> "" /\
               denotes_target f = true).

End WithTarget.

(** [child] is a value of the dict [parent] or an element of the list
    [parent]. *)
Inductive nested_in (child : json) : json -> Prop :=
  | nested_value (key : string) (fields : list (string * json)) :
      (key, child) ∈ fields -> nested_in child (JDict fields)
  | nested_item (items : list json) :
      child ∈ items -> nested_in child (JList items).

(** [node] is [root] or is reached from it through values and elements. *)
Definition reachable (node root : json) : Prop := rtc (flip nested_in) root node.

End Locations.

(** ** Sample documents *)

Module Samples.

(** A process on a POSIX system, started in [/work]. *)
Definition unix : OsPath := Posix.os_path "/work".

Definition at_line (line col : Z) : json :=
  JDict [("line", JInt line); ("col", JInt col)].

Definition span (l1 c1 l2 c2 : Z) : json :=
  JDict [("begin", at_line l1 c1); ("end", at_line l2 c2)].

(** An initialised variable: the declaration, a parenthesized
    expression under it, a literal under that. *)
Definition var_decl : json :=
  JDict [("kind", JStr "VarDecl"); ("loc", at_line 2 7); ("range", span 2 3 2 13);
         ("inner", JList [
            JDict [("kind", JStr "ParenExpr"); ("range", span 2 11 2 13);
                   ("inner", JList [
                      JDict [("kind", JStr "IntegerLiteral");
                             ("range", span 2 12 2 12)]])]])].

Definition literal : json :=
  JDict [("kind", JStr "IntegerLiteral"); ("range", span 2 12 2 12)].

(** An [if] statement from line 10 to line 25. *)
Definition if_stmt : list (string * json) :=
  [("kind", JStr "IfStmt"); ("range", span 10 3 25 3)].

(** A statement that begins and ends on line 10. *)
Definition return_stmt : list (string * json) :=
  [("kind", JStr "ReturnStmt"); ("range", span 10 3 10 11)].

(** A class template: [template] is on line 10, the name of the class on
    line 12, the closing brace on line 25. *)
Definition class_template : list (string * json) :=
  [("kind", JStr "ClassTemplateDecl"); ("loc", at_line 12 7);
   ("range", span 10 1 25 1)].

End Samples.

(** ** The specification's wording, for comparison with the code *)

Module SpecWords.
Import PyStr.

(** The fallback combination as the specification words it: one
    description verbatim, two joined with "and", three or more joined
    with commas, then "and", then the last. *)
Definition combine_as_specified (descriptions : list string) : string :=
  match descriptions with
  | [d] => d
  | [d0; d1] => d0 +:+ " and " +:+ d1
  | _ => join ", " (removelast descriptions) +:+ ", and " +:+ List.last descriptions ""
  end.

(** The description of an unrecognized tag as the specification words
    it. *)
Definition unrecognized_as_specified (tag : string) : string :=
  "unrecognized category: `" +:+ tag +:+ "`".

(** The ordered heuristics of the contextual suffix: a test on the
    case-folded, trimmed text and the annotation it selects. *)
Definition heuristics : list ((string -> bool) * string) :=
  [ (contains "main(", "this is the program's entry point");
    (fun text => startswith "class " text || startswith "struct " text,
     "defining a new data type");
    (startswith "#include", "including external code");
    (fun text => contains "cout" text || contains "printf" text,
     "performing output operation");
    (fun text => contains "cin" text || contains "scanf" text,
     "performing input operation");
    (fun text => contains "=" text && endswith ";" text && negb (startswith "for" text),
     "assignment or initialization") ].

(** The first heuristic that holds of the text, if any. *)
Definition first_heuristic (text : string) : option string :=
  snd <$> List.find (fun h => fst h text) heuristics.

(** Its annotation in parentheses after a space; nothing when no
    heuristic holds. *)
Definition contextual_suffix (text : string) : string :=
  match first_heuristic text with
  | Some annotation => " (" +:+ annotation +:+ ")"
  | None => ""
  end.

End SpecWords.

(** ** The display: [get_node_color] and [annotate_code_with_explanations]

    The parts of the display that compute text.  The kinds of a line
    are taken as strings, which they are when every "kind" of the
    document is one. *)

Module Render.
Import PyStr.

(** [kind in [...]] on a list of strings: the members are compared one
    by one, so no kind raises and a kind that is not a string is equal to
    none. *)
Definition in_list (kind : json) (l : list string) : bool :=
  match kind with
  | JStr k => mem k l
  | _ => false
  end.

Definition get_node_color (kind : json) : string :=
  if in_list kind ["FunctionDecl"; "CXXMethodDecl"; "CXXConstructorDecl";
                   "CXXDestructorDecl"] then "bright_blue"
  else if in_list kind ["CXXRecordDecl"; "ClassTemplateDecl"] then "bright_green"
  else if in_list kind ["VarDecl"; "FieldDecl"; "ParmVarDecl"] then "bright_yellow"
  else if in_list kind ["IfStmt"; "ForStmt"; "WhileStmt"; "CXXForRangeStmt";
                        "SwitchStmt"] then "bright_magenta"
  else if in_list kind ["ReturnStmt"; "BreakStmt"; "ContinueStmt"] then "bright_red"
  else "white".

(** [l[:stop]]: a negative [stop] counts from the end. *)
Definition slice_to {A : Type} (stop : Z) (l : list A) : list A :=
  if 0 <=? stop then take (Z.to_nat stop) l
  else take (Z.to_nat (Z.of_nat (length l) + stop)) l.

(** The kinds shown for a line, from [sorted_kinds = sorted(line_map[i])]. *)
Definition displayed_kinds (sorted_kinds : list string) (max_annotations : Z)
    : list string :=
  if Z.of_nat (length sorted_kinds) >? max_annotations then
    slice_to max_annotations sorted_kinds
    ++ ["... +" +:+ pretty (Z.of_nat (length sorted_kinds) - max_annotations)
        +:+ " more"]
  else sorted_kinds.

(** One element of [colored_kinds]. *)
Definition colored_kind (kind : string) : string :=
  if startswith "..." kind then "[dim]" +:+ kind +:+ "[/dim]"
  else
    let color := get_node_color (JStr kind) in
    "[" +:+ color +:+ "]" +:+ kind +:+ "[/" +:+ color +:+ "]".

Definition ast_annotation (use_colors : bool) (displayed_kinds : list string) : string :=
  " // " +:+ join ", " (if use_colors then map colored_kind displayed_kinds
                        else displayed_kinds).

(** [len(str(len(lines)))] *)
Definition max_line_num_width (n_lines : nat) : nat :=
  String.length (pretty (Z.of_nat n_lines)).

(** [f"{i:>{width}} "]: the number, padded with spaces on the left up to
    [width] characters, and a space. *)
Definition line_num_str (width : nat) (i : Z) : string :=
  String.concat "" (repeat " " (width - String.length (pretty i))) +:+ pretty i +:+ " ".

End Render.

(** ** Documents that follow the schema of the parser *)

Module Schema.
Import Py.

(** A value a set can hold. *)
Definition hashable (v : json) : bool :=
  match v with
  | JList _ | JDict _ => false
  | _ => true
  end.

(** The value of a "file" key the engine can compare: a string, or a
    value that counts as absent. *)
Definition file_ok (v : json) : bool :=
  negb (truthy v) || match v with JStr _ => true | _ => false end.

(** In every dict of the document, the "kind" is hashable and the "file"
    is a string or counts as absent. *)
Fixpoint conforms (v : json) : bool :=
  match v with
  | JList items =>
      (fix all (l : list json) : bool :=
         match l with
         | [] => true
         | x :: l' => conforms x && all l'
         end) items
  | JDict fields =>
      hashable (get_or "kind" JNull fields)
      && file_ok (get_or "file" (JStr "") fields)
      && (fix all (d : list (string * json)) : bool :=
            match d with
            | [] => true
            | (_, x) :: d' => conforms x && all d'
            end) fields
  | _ => true
  end.

End Schema.

(** ** The first prototype: [annotate_ast.py] *)

Module AnnotateAst.
Import Py.

(** [AttributeError] ([.get] on a value that is not a dict) and
    [TypeError] (a key that cannot be hashed). *)
Inductive failure : Type := AttrError | HashError.

Inductive outcome (A : Type) : Type :=
  | Done (a : A)
  | Fails (e : failure).
Arguments Done {A} a.
Arguments Fails {A} e.

Definition and_then {A B : Type} (c : outcome A) (k : A -> outcome B) : outcome B :=
  match c with
  | Done a => k a
  | Fails e => Fails e
  end.

(** [v.get(key, {})] *)
Definition get_dict (key : string) (v : json) : outcome json :=
  match v with
  | JDict fields => Done (get_or key (JDict []) fields)
  | _ => Fails AttrError
  end.

(** [v.get(key)] *)
Definition get_none (key : string) (v : json) : outcome json :=
  match v with
  | JDict fields => Done (get_or key JNull fields)
  | _ => Fails AttrError
  end.

(** [ast.get("loc", {}).get("start", {}).get("line")] for a dict [ast]. *)
Definition start_line (ast : list (string * json)) : outcome json :=
  and_then (get_dict "start" (get_or "loc" (JDict []) ast)) (get_none "line").

(** [line_map.setdefault(line, []).append(ast)] *)
Definition record (line : json) (ast : json) (line_map : gmap tag (list json))
    : outcome (gmap tag (list json)) :=
  match Engine.hash_key line with
  | Ok key => Done (<[key := default [] (line_map !! key) ++ [ast]]> line_map)
  | Raise _ => Fails HashError
  end.

(** The lines of the body of [get_line_node_map] before the loop. *)
Definition record_node (ast : list (string * json)) (line_map : gmap tag (list json))
    : outcome (gmap tag (list json)) :=
  and_then (start_line ast) (fun line =>
    if truthy line then record line (JDict ast) line_map else Done line_map).

Fixpoint get_line_node_map (ast : json) (line_map : gmap tag (list json))
    {struct ast} : outcome (gmap tag (list json)) :=
  match ast with
  | JDict fields =>
      and_then (record_node fields line_map) (fun line_map =>
        (fix each_key (fs : list (string * json)) (line_map : gmap tag (list json))
             {struct fs} : outcome (gmap tag (list json)) :=
           match fs with
           | [] => Done line_map
           | (_, value) :: fs' =>
               and_then (get_line_node_map value line_map) (each_key fs')
           end) fields line_map)
  | JList items =>
      (fix each_item (l : list json) (line_map : gmap tag (list json))
           {struct l} : outcome (gmap tag (list json)) :=
         match l with
         | [] => Done line_map
         | item :: l' =>
             and_then (get_line_node_map item line_map) (each_item l')
         end) items line_map
  | _ => Done line_map
  end.

(** [line_map.get(line, [])] *)
Definition nodes_at (line_map : gmap tag (list json)) (key : tag) : list json :=
  default [] (line_map !! key).

End AnnotateAst.

(** * Properties *)

(** ** Facts about Python strings and lists *)

Module PyStrFacts.
Import PyStr.

Lemma app_empty_r (s : string) : s +:+ "" = s.
Proof.
  induction s as [|c s IH]; [reflexivity|].
  change (String c (s +:+ "") = String c s). by rewrite IH.
Qed.

Lemma prefix_refl (s : string) : String.prefix s s = true.
Proof.
  induction s as [|c s IH]; [reflexivity|].
  cbn. destruct (ascii_dec c c); [exact IH | contradiction].
Qed.

Lemma prefix_app (s t : string) : String.prefix s (s +:+ t) = true.
Proof.
  induction s as [|c s IH]; [by destruct t|].
  change (String.prefix (String c s) (String c (s +:+ t)) = true).
  cbn. destruct (ascii_dec c c); [exact IH | contradiction].
Qed.

Lemma mem_elem_of (x : string) (l : list string) : mem x l = true <-> x ∈ l.
Proof.
  unfold mem. rewrite existsb_exists. split.
  - intros (y & Hy & Heq). apply String.eqb_eq in Heq. subst y.
    by apply list_elem_of_In.
  - intros Hx. exists x. split; [by apply list_elem_of_In | apply String.eqb_refl].
Qed.

Lemma subseteq_mem (req tags : list string) :
  forallb (fun x => mem x tags) req = true <-> req ⊆ tags.
Proof.
  rewrite forallb_forall. split.
  - intros Hall x Hx. apply mem_elem_of, Hall. by apply list_elem_of_In.
  - intros Hsub x Hx. apply mem_elem_of, Hsub. by apply list_elem_of_In.
Qed.

Lemma insert_sorted_perm (x : string) (l : list string) : insert_sorted x l ≡ₚ x :: l.
Proof.
  induction l as [|y l IH]; [done|].
  cbn. destruct (String.leb x y); [done|].
  rewrite IH. apply perm_swap.
Qed.

Lemma sorted_perm (l : list string) : sorted l ≡ₚ l.
Proof.
  induction l as [|x l IH]; [done|].
  cbn. by rewrite insert_sorted_perm, IH.
Qed.

Lemma elem_of_sorted (x : string) (l : list string) : x ∈ sorted l <-> x ∈ l.
Proof. by rewrite sorted_perm. Qed.

(** The order of [sorted]: code point order, as a relation. *)
Definition str_le (a b : string) : Prop := String.leb a b = true.

Lemma insert_sorted_hd (x a : string) (l : list string) :
  str_le a x -> HdRel str_le a l -> HdRel str_le a (insert_sorted x l).
Proof.
  intros Hax Hl. destruct l as [|y l]; cbn; [by constructor|].
  destruct (String.leb x y); constructor; [done|].
  by inversion Hl.
Qed.

Lemma insert_sorted_Sorted (x : string) (l : list string) :
  Sorted str_le l -> Sorted str_le (insert_sorted x l).
Proof.
  induction 1 as [|y l Hl IH Hhd]; cbn; [by repeat constructor|].
  destruct (String.leb x y) eqn:Hxy.
  - constructor; [by constructor | by constructor].
  - constructor; [exact IH|].
    apply insert_sorted_hd; [|exact Hhd].
    destruct (String.leb_total x y) as [Hle|Hle]; [congruence | exact Hle].
Qed.

Lemma sorted_Sorted (l : list string) : Sorted str_le (sorted l).
Proof.
  induction l as [|x l IH]; cbn; [constructor|].
  by apply insert_sorted_Sorted.
Qed.

Lemma sorted_nil_inv (l : list string) : sorted l = [] -> l = [].
Proof.
  intros Hs. apply Permutation_nil_r. by rewrite <- Hs, sorted_perm.
Qed.

Lemma str_app_cons (c : ascii) (s t : string) : String c s +:+ t = String c (s +:+ t).
Proof. reflexivity. Qed.

Lemma str_app_assoc (s t u : string) : (s +:+ t) +:+ u = s +:+ (t +:+ u).
Proof. induction s as [|c s IH]; [reflexivity|]. by rewrite !str_app_cons, IH. Qed.

Lemma str_length_app (s t : string) :
  String.length (s +:+ t) = (String.length s + String.length t)%nat.
Proof. induction s as [|c s IH]; [reflexivity|]. rewrite str_app_cons. cbn. by rewrite IH. Qed.

Lemma is_space_low (c : ascii) : is_space c = true -> (N_of_ascii c < 128)%N.
Proof. destruct c as [[] [] [] [] [] [] [] []]; vm_compute; congruence. Qed.

Lemma is_space2_high (c d : ascii) :
  is_space2 c d = true -> (128 <= N_of_ascii c)%N /\ (128 <= N_of_ascii d)%N.
Proof.
  unfold is_space2. cbv zeta.
  rewrite !andb_true_iff, !orb_true_iff, !N.eqb_eq. lia.
Qed.

Lemma is_space3_high (c d e : ascii) :
  is_space3 c d e = true ->
  (224 <= N_of_ascii c)%N /\ (128 <= N_of_ascii d)%N /\ (128 <= N_of_ascii e)%N.
Proof.
  unfold is_space3. cbv zeta.
  repeat progress rewrite ?orb_true_iff, ?andb_true_iff, ?N.eqb_eq, ?N.leb_le.
  lia.
Qed.

Lemma is_space2_first (c d : ascii) : is_space2 c d = true -> is_space c = false.
Proof.
  intros [Hc _]%is_space2_high. apply not_true_iff_false.
  intros Hs%is_space_low. lia.
Qed.

Lemma is_space3_first (c d e : ascii) :
  is_space3 c d e = true -> is_space c = false /\ is_space2 c d = false.
Proof.
  intros (Hc & _ & _)%is_space3_high. split; apply not_true_iff_false.
  - intros Hs%is_space_low. lia.
  - unfold is_space2. cbv zeta. rewrite andb_true_iff, N.eqb_eq. lia.
Qed.

Lemma space_char_length (w : string) : space_char w -> (0 < String.length w)%nat.
Proof. destruct 1; cbn; lia. Qed.

Lemma lstrip_space_char (w s : string) : space_char w -> lstrip (w +:+ s) = lstrip s.
Proof.
  destruct 1 as [c Hc|c d Hcd|c d e Hcde]; rewrite !str_app_cons; cbn [lstrip].
  - by rewrite Hc.
  - by rewrite (is_space2_first _ _ Hcd), Hcd.
  - destruct (is_space3_first _ _ _ Hcde) as [-> ->]. by rewrite Hcde.
Qed.

Lemma lstrip_cases (s : string) :
  (exists w t, space_char w /\ s = w +:+ t) \/ lstrip s = s.
Proof.
  destruct s as [|c s1]; [by right|].
  cbn [lstrip]. destruct (is_space c) eqn:Hc.
  { left. exists (String c ""), s1. split; [by constructor | reflexivity]. }
  destruct s1 as [|d s2]; [by right|].
  destruct (is_space2 c d) eqn:Hcd.
  { left. exists (String c (String d "")), s2. split; [by constructor | reflexivity]. }
  destruct s2 as [|e s3]; [by right|].
  destruct (is_space3 c d e) eqn:Hcde; [|by right].
  left. exists (String c (String d (String e ""))), s3.
  split; [by constructor | reflexivity].
Qed.

(** Induction along the whitespace characters at the start of a text. *)
Lemma lstrip_ind (P : string -> Prop) :
  (forall s, lstrip s = s -> P s) ->
  (forall w t, space_char w -> lstrip (w +:+ t) = lstrip t -> P t -> P (w +:+ t)) ->
  forall s, P s.
Proof.
  intros Hstop Hstep s.
  remember (String.length s) as n eqn:Hn. revert s Hn.
  induction n as [n IH] using lt_wf_ind. intros s ->.
  destruct (lstrip_cases s) as [(w & t & Hw & ->)|Hs]; [|by apply Hstop].
  apply Hstep; [done | by apply lstrip_space_char |].
  apply (IH (String.length t)); [|done].
  rewrite str_length_app. pose proof (space_char_length _ Hw). lia.
Qed.

Lemma lstrip_length (s : string) : (String.length (lstrip s) <= String.length s)%nat.
Proof.
  induction s as [s Hs|w t Hw Ht IH] using lstrip_ind; [by rewrite Hs|].
  rewrite Ht, str_length_app. lia.
Qed.

Lemma lstrip_idem (s : string) : lstrip (lstrip s) = lstrip s.
Proof.
  induction s as [s Hs|w t Hw Ht IH] using lstrip_ind; [by rewrite !Hs|].
  by rewrite Ht.
Qed.

(** Text made of whitespace only is dropped from the start of a longer
    text. *)
Lemma lstrip_app_space (a b : string) : lstrip a = "" -> lstrip (a +:+ b) = lstrip b.
Proof.
  induction a as [a Ha|w t Hw Ht IH] using lstrip_ind.
  - intros Hnil. rewrite Hnil in Ha. by rewrite <- Ha.
  - rewrite Ht. intros Hnil. rewrite str_app_assoc, lstrip_space_char by done. by apply IH.
Qed.

(** A text that does not start with whitespace has no prefix that does. *)
Lemma lstrip_prefix (p x : string) : lstrip (p +:+ x) = p +:+ x -> lstrip p = p.
Proof.
  intros Hu. destruct (lstrip_cases p) as [(w & t & Hw & ->)|Hp]; [|done].
  exfalso. rewrite str_app_assoc, lstrip_space_char in Hu by done.
  pose proof (lstrip_length (t +:+ x)) as Hlen.
  rewrite Hu, !str_length_app in Hlen. pose proof (space_char_length _ Hw). lia.
Qed.

(** [rstrip] cuts a text in two: what it keeps, and whitespace. *)
Lemma rstrip_split (s : string) : exists x, s = rstrip s +:+ x /\ lstrip x = "".
Proof.
  induction s as [|c s (x & Hx & Hnil)]; [by exists ""|].
  cbn [rstrip]. destruct (String.eqb (lstrip (String c s)) "") eqn:Hall.
  - exists (String c s). split; [reflexivity|]. by apply String.eqb_eq.
  - exists x. split; [|done]. by rewrite str_app_cons, <- Hx.
Qed.

Lemma rstrip_idem (s : string) : rstrip (rstrip s) = rstrip s.
Proof.
  induction s as [|c s IH]; [reflexivity|].
  cbn [rstrip]. destruct (String.eqb (lstrip (String c s)) "") eqn:Hall; [reflexivity|].
  cbn [rstrip]. rewrite IH.
  destruct (String.eqb (lstrip (String c (rstrip s))) "") eqn:Hcut; [|reflexivity].
  apply String.eqb_eq in Hcut. apply String.eqb_neq in Hall.
  destruct (rstrip_split s) as (x & Hx & Hnil). destruct Hall.
  rewrite Hx, <- str_app_cons, lstrip_app_space; done.
Qed.

Lemma lstrip_rstrip (s : string) : lstrip s = s -> lstrip (rstrip s) = rstrip s.
Proof.
  intros Hs. destruct (rstrip_split s) as (x & Hx & _).
  apply (lstrip_prefix _ x). by rewrite <- Hx.
Qed.

Lemma py_strip_idem (s : string) : py_strip (py_strip s) = py_strip s.
Proof.
  unfold py_strip. rewrite (lstrip_rstrip (lstrip s)) by apply lstrip_idem.
  apply rstrip_idem.
Qed.

End PyStrFacts.

(** ** The explanation synthesizer *)

Module ExplainerFacts.
Import PyStr PyStrFacts Explainer SpecWords.

Lemma pattern_matches_subseteq (tags req : list string) :
  pattern_matches (sorted tags) req = true <-> req ⊆ tags.
Proof.
  unfold pattern_matches. rewrite forallb_forall. split.
  - intros Hall x Hx. apply elem_of_sorted, mem_elem_of, Hall.
    by apply list_elem_of_In.
  - intros Hsub x Hx. apply mem_elem_of, elem_of_sorted, Hsub.
    by apply list_elem_of_In.
Qed.

(** The loop returns the text of the rule of least index that matches. *)
Lemma match_patterns_first (nodes : list string) (rules : list (list string * string))
    (i : nat) (req : list string) (text : string) :
  rules !! i = Some (req, text) ->
  pattern_matches nodes req = true ->
  (forall j req' text', (j < i)%nat -> rules !! j = Some (req', text') ->
     pattern_matches nodes req' = false) ->
  match_patterns nodes rules = Some text.
Proof.
  revert i. induction rules as [|[r t] rules IH]; intros i Hi Hm Hbefore; [done|].
  destruct i as [|i]; cbn in *.
  - injection Hi as -> ->. by rewrite Hm.
  - rewrite (Hbefore 0%nat r t); [|lia|done].
    apply (IH i); [done..|].
    intros j r' t' Hj Hl. apply (Hbefore (S j) r' t'); [lia|done].
Qed.

Lemma match_patterns_none (nodes : list string) (rules : list (list string * string)) :
  (forall req text, (req, text) ∈ rules -> pattern_matches nodes req = false) ->
  match_patterns nodes rules = None.
Proof.
  induction rules as [|[r t] rules IH]; intros Hno; [done|].
  cbn. rewrite (Hno r t); [|by left].
  apply IH. intros r' t' Hin. apply (Hno r' t'). by right.
Qed.

Lemma no_subset_no_match (tags : list string) :
  (forall req text, (req, text) ∈ patterns -> ¬ req ⊆ tags) ->
  match_patterns (sorted tags) patterns = None.
Proof.
  intros Hno. apply match_patterns_none. intros r t Hin.
  destruct (pattern_matches (sorted tags) r) eqn:Hm; [|done].
  apply pattern_matches_subseteq in Hm. by destruct (Hno r t).
Qed.

(** Every rule requires at least one tag, and its first tag has a
    catalog description. *)
Lemma patterns_head_known :
  Forall (fun rule => exists x rest, fst rule = x :: rest /\
                        is_Some (lookup_explanation x explanations)) patterns.
Proof.
  unfold patterns.
  repeat (constructor; [eexists _, _; split; [reflexivity | by vm_compute; eexists]|]).
  constructor.
Qed.

Lemma subset_nonempty (tags req : list string) (text : string) :
  (req, text) ∈ patterns -> req ⊆ tags -> tags <> [].
Proof.
  intros Hin Hsub ->.
  pose proof (proj1 (Forall_forall _ _) patterns_head_known _ Hin) as (x & rest & Hreq & _).
  cbn in Hreq. subst req. specialize (Hsub x ltac:(by left)).
  by apply elem_of_nil in Hsub.
Qed.

Lemma unknown_alone_no_match (tag : string) :
  lookup_explanation tag explanations = None ->
  match_patterns [tag] patterns = None.
Proof.
  intros Hunknown. apply match_patterns_none. intros r t Hin.
  pose proof (proj1 (Forall_forall _ _) patterns_head_known _ Hin) as (x & rest & Hreq & Hx).
  cbn in Hreq. subst r. cbn.
  destruct (String.eqb_spec x tag) as [->|Hne]; [|done].
  rewrite Hunknown in Hx. by destruct Hx.
Qed.

Lemma combine_snoc (init : list string) (z : string) :
  (2 <= length init)%nat ->
  combine (init ++ [z]) = "combines " +:+ join ", " init +:+ ", and " +:+ z.
Proof.
  intros Hlen. unfold combine.
  rewrite removelast_last, last_last.
  destruct init as [|a [|b [|c init]]]; cbn in Hlen; [lia..| |]; reflexivity.
Qed.

(** The detailed explanation is the plain one followed by the suffix
    the text selects. *)
Lemma detailed_decompose (tags : list string) (line : string) :
  get_detailed_explanation tags line
  = explain_ast_nodes tags line +:+ contextual_suffix (py_strip (py_lower line)).
Proof.
  unfold get_detailed_explanation, contextual_suffix, first_heuristic, heuristics.
  rewrite py_strip_idem.
  set (text := py_strip (py_lower line)). cbn [List.find fst snd].
  destruct (contains "main(" text); [done|].
  destruct (startswith "class " text); [done|].
  destruct (startswith "struct " text); [done|].
  destruct (startswith "#include" text); [done|].
  destruct (contains "cout" text); [done|].
  destruct (contains "printf" text); [done|].
  destruct (contains "cin" text); [done|].
  destruct (contains "scanf" text); [done|].
  destruct (endswith ";" text), (contains "=" text), (startswith "for" text);
    cbn; by rewrite ?app_empty_r.
Qed.

Lemma contextual_suffix_cases (text : string) :
  contextual_suffix text = "" \/
  exists annotation, annotation ∈ map snd heuristics /\
    contextual_suffix text = " (" +:+ annotation +:+ ")".
Proof.
  unfold contextual_suffix, first_heuristic.
  destruct (List.find _ heuristics) as [[test annotation]|] eqn:Hfind; [|by left].
  right. exists annotation. split; [|done].
  apply find_some in Hfind as [Hin _].
  apply list_elem_of_In. apply (in_map snd) in Hin. exact Hin.
Qed.

End ExplainerFacts.

Section Synthesizer.
Import PyStr PyStrFacts Explainer SpecWords ExplainerFacts.

(** C3, pattern priority.  The rules are tried in the order of the
  catalog: when the rule of index [i] has all its required tags in the
  tag set and no rule of smaller index has, the explanation is the text
  of rule [i], whatever rules of larger index also match. *)
Theorem pattern_priority (tags : list string) (line : string)
  (i : nat) (req : list string) (text : string) :
patterns !! i = Some (req, text) ->
req ⊆ tags ->
(forall j req' text', (j < i)%nat -> patterns !! j = Some (req', text') -> ¬ req' ⊆ tags) ->
explain_ast_nodes tags line = text.
Proof.
intros Hi Hsub Hbefore.
assert (tags <> []) as Hne.
{ apply (subset_nonempty tags req text); [|done]. by apply list_elem_of_lookup_2 in Hi. }
unfold explain_ast_nodes. destruct tags as [|t tags]; [done|].
rewrite (match_patterns_first _ _ i req text); [done|done| |].
- by apply pattern_matches_subseteq.
- intros j r' t' Hj Hl.
  destruct (pattern_matches (sorted (t :: tags)) r') eqn:Hm; [|done].
  apply pattern_matches_subseteq in Hm. by destruct (Hbefore j r' t').
Qed.

Lemma pattern_priority_witness :
patterns !! 1%nat = Some (["FunctionDecl"; "ParmVarDecl"], "defines a function that takes parameters")
/\ explain_ast_nodes ["ParmVarDecl"; "FunctionDecl"; "DeclRefExpr"; "CallExpr"] "int f(int x) { return g(x); }"
   = "defines a function that takes parameters".
Proof.
split; [reflexivity|].
apply (pattern_priority _ _ 1 ["FunctionDecl"; "ParmVarDecl"]); [reflexivity| |].
- apply subseteq_mem. reflexivity.
- intros j r t Hj Hl. destruct j as [|j]; [|lia].
  injection Hl as <- <-. intros Hsub%subseteq_mem. discriminate Hsub.
Defined.

(** C4, fallback join as amended.  When no rule matches a non-empty tag
  set, the descriptions are taken in sorted tag order; one is returned
  verbatim, two are joined with " and ", and three or more are
  introduced by the word "combines ", the leading ones separated by
  ", " and the last one attached with ", and ". *)
Theorem fallback_join (tags : list string) (line : string) :
tags <> [] ->
(forall req text, (req, text) ∈ patterns -> ¬ req ⊆ tags) ->
Sorted str_le (sorted tags) /\ sorted tags ≡ₚ tags /\
(forall d, map describe (sorted tags) = [d] -> explain_ast_nodes tags line = d) /\
(forall d0 d1, map describe (sorted tags) = [d0; d1] ->
   explain_ast_nodes tags line = d0 +:+ " and " +:+ d1) /\
(forall init z, map describe (sorted tags) = init ++ [z] -> (2 <= length init)%nat ->
   explain_ast_nodes tags line = "combines " +:+ join ", " init +:+ ", and " +:+ z).
Proof.
intros Hne Hno.
split; [apply sorted_Sorted|]. split; [apply sorted_perm|].
assert (explain_ast_nodes tags line = combine (map describe (sorted tags))) as ->.
{ unfold explain_ast_nodes. destruct tags as [|t tags]; [done|].
  by rewrite (no_subset_no_match _ Hno). }
split; [by intros d ->|]. split; [by intros d0 d1 ->|].
intros init z -> Hlen. by apply combine_snoc.
Qed.

Lemma fallback_join_witness :
  explain_ast_nodes ["GotoStmt"; "BreakStmt"; "ContinueStmt"] ""
  = "combines breaks out of a loop or switch statement, "
    +:+ "continues to the next iteration of a loop, and represents a goto statement".
Proof.
  assert (["GotoStmt"; "BreakStmt"; "ContinueStmt"] <> []) as Hne by discriminate.
  assert (forall req text, (req, text) ∈ patterns ->
            ¬ req ⊆ ["GotoStmt"; "BreakStmt"; "ContinueStmt"]) as Hno.
  { intros req text Hin Hsub%subseteq_mem. revert Hsub.
    apply list_elem_of_In in Hin. unfold patterns in Hin. cbn [In] in Hin.
    repeat (destruct Hin as [Hin|Hin]; [injection Hin as <- <-; discriminate|]).
    destruct Hin. }
  destruct (fallback_join _ "" Hne Hno) as (_ & _ & _ & _ & Hmany).
  apply (Hmany ["breaks out of a loop or switch statement";
                "continues to the next iteration of a loop"]
               "represents a goto statement"); [reflexivity | cbn; lia].
Defined.

(** C4 as the specification words it fails: on three tags that no rule matches,
    the code's result is not the bare comma-and-"and" enumeration. *)
Lemma fallback_join_not_as_specified :
  match_patterns (sorted ["BreakStmt"; "ContinueStmt"; "GotoStmt"]) patterns = None /\
  explain_ast_nodes ["BreakStmt"; "ContinueStmt"; "GotoStmt"] ""
  <> combine_as_specified (map describe (sorted ["BreakStmt"; "ContinueStmt"; "GotoStmt"])).
Proof. split; [reflexivity|]. vm_compute. discriminate. Qed.

(** C5, unknown tags as amended.  A tag without a catalog description
    never makes the synthesizer fail: its description is the text
    "AST node: " followed by the tag, which is the whole explanation when
    the tag is alone and one of the combined descriptions otherwise. *)
Theorem unknown_tag_description (tag : string) :
  lookup_explanation tag explanations = None ->
  describe tag = "AST node: " +:+ tag /\
  (forall line, explain_ast_nodes [tag] line = "AST node: " +:+ tag) /\
  (forall tags line, tag ∈ tags ->
     (forall req text, (req, text) ∈ patterns -> ¬ req ⊆ tags) ->
     exists descriptions,
       explain_ast_nodes tags line = combine descriptions /\
       length descriptions = length tags /\
       ("AST node: " +:+ tag) ∈ descriptions).
Proof.
  intros Hunknown.
  assert (describe tag = "AST node: " +:+ tag) as Hdesc.
  { unfold describe. by rewrite Hunknown. }
  split; [exact Hdesc|]. split.
  - intros line. unfold explain_ast_nodes. cbn [sorted insert_sorted].
    rewrite (unknown_alone_no_match _ Hunknown). cbn. exact Hdesc.
  - intros tags line Hin Hno. exists (map describe (sorted tags)).
    split; [|split].
    + unfold explain_ast_nodes. destruct tags as [|t tags]; [by apply elem_of_nil in Hin|].
      by rewrite (no_subset_no_match _ Hno).
    + by rewrite length_map, sorted_perm.
    + rewrite <- Hdesc. apply list_elem_of_fmap_2. by apply elem_of_sorted.
Qed.

Lemma unknown_tag_description_witness :
  lookup_explanation "UnheardOfNodeXYZ" explanations = None /\
  explain_ast_nodes ["UnheardOfNodeXYZ"] "" = "AST node: UnheardOfNodeXYZ".
Proof.
  split; [reflexivity|].
  apply (unknown_tag_description "UnheardOfNodeXYZ"). reflexivity.
Defined.

(** C5 as the specification words it fails: the text for an unknown tag is not
    "unrecognized category: `<tag>`". *)
Lemma unknown_tag_not_as_specified :
  lookup_explanation "UnheardOfNodeXYZ" explanations = None /\
  explain_ast_nodes ["UnheardOfNodeXYZ"] "" <> unrecognized_as_specified "UnheardOfNodeXYZ".
Proof. split; [reflexivity|]. vm_compute. discriminate. Qed.


(** C9, detailed extends plain.  The detailed explanation is the plain
    one followed by nothing or by one parenthesized annotation, so the
    plain explanation is a prefix of it; for no tags and a line that no
    heuristic matches both are empty. *)
Theorem detailed_extends_plain (tags : list string) (line : string) :
  (exists suffix,
     get_detailed_explanation tags line = explain_ast_nodes tags line +:+ suffix /\
     (suffix = "" \/
      exists annotation, annotation ∈ map snd heuristics /\
        suffix = " (" +:+ annotation +:+ ")")) /\
  String.prefix (explain_ast_nodes tags line) (get_detailed_explanation tags line) = true /\
  (first_heuristic (py_strip (py_lower line)) = None ->
   explain_ast_nodes [] line = "" /\ get_detailed_explanation [] line = "").
Proof.
  split; [|split].
  - exists (contextual_suffix (py_strip (py_lower line))).
    split; [apply detailed_decompose | apply contextual_suffix_cases].
  - rewrite detailed_decompose. apply prefix_app.
  - intros Hnone. split; [reflexivity|].
    rewrite detailed_decompose. unfold contextual_suffix. by rewrite Hnone.
Qed.

Lemma detailed_extends_plain_witness :
  first_heuristic (py_strip (py_lower "  }  ")) = None /\
  get_detailed_explanation [] "  }  " = "".
Proof.
  split; [reflexivity|].
  apply (detailed_extends_plain [] "  }  "). reflexivity.
Defined.

(** The margins of a line are its whitespace characters of any width: a
    no-break space after the semicolon leaves the line an assignment,
    and an em space before [for] leaves it a loop header. *)
Example detailed_unicode_margins :
  get_detailed_explanation [] ("x = 1;" +:+ no_break_space)
  = " (assignment or initialization)" /\
  py_strip (em_space +:+ "for (i = 0;;) i = 1;" +:+ no_break_space)
  = "for (i = 0;;) i = 1;" /\
  get_detailed_explanation [] (em_space +:+ "for (i = 0;;) i = 1;" +:+ no_break_space)
  = "".
Proof. repeat split; reflexivity. Qed.

End Synthesizer.

(** ** The filter profiles *)

Section Profiles.
Import Filter.

(** C10, unknown profile names.  Called with a profile name that is none
    of "minimal", "clean", "declarations" and "statements", the filter
    answers true for every kind, as it does for "all". *)
Theorem unknown_profile_admits_all (kind : json) (filter_config : string) :
  filter_config <> "minimal" ->
  filter_config <> "clean" ->
  filter_config <> "declarations" ->
  filter_config <> "statements" ->
  should_include_node kind filter_config = Ok true /\
  should_include_node kind filter_config = should_include_node kind "all".
Proof.
  intros H1 H2 H3 H4. unfold should_include_node.
  apply String.eqb_neq in H1, H2, H3, H4. by rewrite H1, H2, H3, H4.
Qed.

Lemma unknown_profile_admits_all_witness :
  should_include_node (JStr "ParenExpr") "Clean" = Ok true /\
  should_include_node (JList [JInt 1]) "" = Ok true.
Proof.
  split.
  - apply (unknown_profile_admits_all (JStr "ParenExpr") "Clean"); discriminate.
  - apply (unknown_profile_admits_all (JList [JInt 1]) ""); discriminate.
Defined.

End Profiles.

(** ** The correlation engine *)

Module EngineFacts.
Import Py Filter Engine Locations.

Lemma tags_at_add_tag (n : Z) (t : tag) (m : gmap Z (gset tag)) (L : Z) :
  tags_at (add_tag n t m) L
  = if decide (n = L) then tags_at m L ∪ {[t]} else tags_at m L.
Proof.
  unfold add_tag. unfold tags_at at 1. rewrite lookup_insert.
  by destruct (decide (n = L)) as [->|].
Qed.

Lemma lookup_add_tag_ne (n : Z) (t : tag) (m : gmap Z (gset tag)) (L : Z) :
  n <> L -> add_tag n t m !! L = m !! L.
Proof. intros Hne. unfold add_tag. by rewrite lookup_insert_ne. Qed.

Lemma add_all_app (m : gmap Z (gset tag)) (r1 r2 : list (Z * tag)) :
  add_all m (r1 ++ r2) = add_all (add_all m r1) r2.
Proof. unfold add_all. apply foldl_app. Qed.

Lemma add_all_cons (m : gmap Z (gset tag)) (n : Z) (t : tag) (rs : list (Z * tag)) :
  add_all m ((n, t) :: rs) = add_all (add_tag n t m) rs.
Proof. reflexivity. Qed.

Lemma elem_of_add_all (m : gmap Z (gset tag)) (rs : list (Z * tag)) (L : Z) (t : tag) :
  t ∈ tags_at (add_all m rs) L <-> t ∈ tags_at m L \/ (L, t) ∈ rs.
Proof.
  revert m. induction rs as [|[n u] rs IH]; intros m.
  - cbn. rewrite elem_of_nil. tauto.
  - rewrite add_all_cons, IH, tags_at_add_tag, elem_of_cons.
    destruct (decide (n = L)) as [->|Hne].
    + rewrite elem_of_union, elem_of_singleton. split.
      * intros [[? | ->] | ?]; auto.
      * intros [?|[Heq|?]]; auto. injection Heq as ->. auto.
    + split; [intros [?|?]; auto|].
      intros [?|[Heq|?]]; auto. injection Heq as -> ->. done.
Qed.

Lemma lookup_add_all_ne (m : gmap Z (gset tag)) (rs : list (Z * tag)) (L : Z) :
  (forall e, e ∈ rs -> fst e <> L) -> add_all m rs !! L = m !! L.
Proof.
  revert m. induction rs as [|[n u] rs IH]; intros m Hne; [done|].
  rewrite add_all_cons, IH.
  - apply lookup_add_tag_ne. apply (Hne (n, u)). by left.
  - intros e He. apply Hne. by right.
Qed.

Lemma tags_at_add_all_mono (m : gmap Z (gset tag)) (rs : list (Z * tag)) (L : Z) :
  tags_at m L ⊆ tags_at (add_all m rs) L.
Proof. intros t Ht. apply elem_of_add_all. by left. Qed.

Lemma as_int_truthy (v : json) (n : Z) :
  as_int v = Some n -> truthy v = negb (n =? 0).
Proof. destruct v as [|[]| | | |]; intros [= <-]; done. Qed.

Lemma should_include_tag_value (cfg : string) (k : json) (t : tag) (b : bool) :
  hash_key k = Ok t ->
  should_include_node k cfg = Ok b ->
  should_include_node (tag_value t) cfg = Ok b.
Proof. destruct k; intros [= <-]; done. Qed.

Lemma as_int_py_eq (v v' : json) (n : Z) :
  py_eq v v' = true -> as_int v = Some n -> as_int v' = Some n.
Proof.
  destruct v as [|x|m| | |], v' as [|y|m'| | |]; try done; cbn; intros Heq [= <-].
  - apply Bool.eqb_prop in Heq. by subst.
  - apply Z.eqb_eq in Heq. by subst.
  - apply Z.eqb_eq in Heq. by subst.
  - apply Z.eqb_eq in Heq. by subst.
Qed.

Lemma py_eq_dict_get (d d' : list (string * json)) (key : string) (v : json) :
  py_eq (JDict d) (JDict d') = true ->
  dict_get key d = Some v ->
  exists v', dict_get key d' = Some v' /\ py_eq v v' = true.
Proof.
  cbn [py_eq]. intros [_ Hitems]%andb_true_iff. revert Hitems.
  induction d as [|[k w] d IH]; [done|].
  intros [Hhead Htail]%andb_true_iff. cbn [dict_get].
  destruct (String.eqb_spec key k) as [->|Hne].
  - intros [= ->]. destruct (dict_get k d') as [v'|]; [|done]. eauto.
  - by apply IH.
Qed.

Section WithTarget.
Context `{OsPath}.
Variable target_file_path : string.
Variable filter_config : string.

Local Abbreviation register := (register filter_config).
Local Abbreviation process_location := (process_location target_file_path filter_config).
Local Abbreviation process_node := (process_node target_file_path filter_config).
Local Abbreviation process_loc := (process_loc target_file_path filter_config).
Local Abbreviation process_range := (process_range target_file_path filter_config).
Local Abbreviation collect := (collect_line_annotations target_file_path filter_config).

(** A step of the engine adds the entries [rs], whatever map it starts
    from. *)
Definition emits (f : gmap Z (gset tag) -> result (gmap Z (gset tag)))
    (rs : list (Z * tag)) : Prop :=
  forall m, f m = Ok (add_all m rs).

Ltac emits_nothing :=
  exists []; split; [by intros ? ?%elem_of_nil | by intros ?].

Lemma emits_nil : emits Ok [].
Proof. by intros m. Qed.

Lemma emits_bind (f g : gmap Z (gset tag) -> result (gmap Z (gset tag)))
    (r1 r2 : list (Z * tag)) :
  emits f r1 -> emits g r2 -> emits (fun m => do m1 <- f m; g m1) (r1 ++ r2).
Proof. intros Hf Hg m. by rewrite Hf, add_all_app; cbn. Qed.

Lemma emits_result (f : gmap Z (gset tag) -> result (gmap Z (gset tag)))
    (rs : list (Z * tag)) (m m' : gmap Z (gset tag)) :
  emits f rs -> f m = Ok m' -> m' = add_all m rs.
Proof. intros Hf Hm. rewrite Hf in Hm. by injection Hm. Qed.

Lemma register_emits (n : Z) (k : json) (m m' : gmap Z (gset tag)) :
  register n k m = Ok m' ->
  exists rs,
    (forall e, e ∈ rs ->
       fst e = n /\ hash_key k = Ok (snd e) /\ should_include_node k filter_config = Ok true)
    /\ emits (register n k) rs.
Proof.
  unfold Engine.register.
  destruct (should_include_node k filter_config) as [[]|] eqn:Hinc; cbn; [| |done].
  - unfold add_kind. destruct (hash_key k) as [t|] eqn:Hkey; cbn; [|done].
    intros _. exists [(n, t)]. split.
    + intros e ->%list_elem_of_singleton. done.
    + intros m2. unfold Engine.register, add_kind.
      rewrite ?Hinc; cbn; rewrite ?Hkey; done.
  - intros _. exists []. split; [by intros e ?%elem_of_nil|].
    intros m2. unfold Engine.register. by rewrite ?Hinc.
Qed.

Lemma process_location_emits (loc k : json) (m m' : gmap Z (gset tag)) :
  process_location loc k m = Ok m' ->
  exists rs,
    (forall e, e ∈ rs ->
       line_of loc = Some (fst e) /\ fst e <> 0 /\ truthy k = true /\
       hash_key k = Ok (snd e) /\ should_include_node k filter_config = Ok true)
    /\ emits (process_location loc k) rs.
Proof.
  assert (exists rs : list (Z * tag), (forall e, e ∈ rs ->
       line_of loc = Some (fst e) /\ fst e <> 0 /\ truthy k = true /\
       hash_key k = Ok (snd e) /\ should_include_node k filter_config = Ok true)
    /\ emits Ok rs) as Hnothing.
  { exists []. split; [by intros e ?%elem_of_nil | apply emits_nil]. }
  unfold Engine.process_location, emits.
  destruct loc as [| | | | |[|kv fields]]; try (intros _; exact Hnothing).
  set (d := kv :: fields).
  destruct (as_int (get_or "line" JNull d)) as [n|] eqn:Hline;
    [|intros _; exact Hnothing].
  rewrite (as_int_truthy _ _ Hline).
  destruct (negb (n =? 0) && truthy k) eqn:Hgo; [|intros _; exact Hnothing].
  apply andb_true_iff in Hgo as [Hn Hk].
  apply negb_true_iff, Z.eqb_neq in Hn.
  assert (forall m m', register n k m = Ok m' ->
    exists rs : list (Z * tag), (forall e, e ∈ rs ->
       line_of (JDict d) = Some (fst e) /\ fst e <> 0 /\ truthy k = true /\
       hash_key k = Ok (snd e) /\ should_include_node k filter_config = Ok true)
    /\ emits (register n k) rs) as Hreg.
  { intros m1 m2 (rs & Hrs & Hemit)%register_emits. exists rs. split; [|done].
    intros e (-> & ? & ?)%Hrs. done. }
  destruct (negb (truthy (get_or "file" (JStr "") d))); [apply Hreg|].
  destruct (get_or "file" (JStr "") d); try done.
  match goal with |- context [if ?c then _ else _] => destruct c end;
    [apply Hreg | intros _; exact Hnothing].
Qed.

(** What the node registers for itself: entries on the line of its
    location or of an end of its range, with its own kind, accepted by the
    profile. *)
Definition own_entry (node : list (string * json)) (e : Z * tag) : Prop :=
  (line_of (loc_of node) = Some (fst e) \/ line_of (begin_of node) = Some (fst e)
   \/ line_of (end_of node) = Some (fst e)) /\
  fst e <> 0 /\ truthy (kind_of node) = true /\
  hash_key (kind_of node) = Ok (snd e) /\
  should_include_node (kind_of node) filter_config = Ok true.

Lemma process_loc_emits (node : list (string * json)) (m m' : gmap Z (gset tag)) :
  process_loc node m = Ok m' ->
  exists rs, (forall e, e ∈ rs -> own_entry node e) /\ emits (process_loc node) rs.
Proof.
  unfold Engine.process_loc. fold (loc_of node) (kind_of node).
  destruct (truthy (loc_of node)).
  - intros (rs & Hrs & Hemit)%process_location_emits. exists rs. split; [|done].
    intros e (? & ? & ? & ? & ?)%Hrs. unfold own_entry. auto.
  - intros _. exists []. split; [by intros e ?%elem_of_nil | apply emits_nil].
Qed.

Lemma process_range_emits (node : list (string * json)) (m m' : gmap Z (gset tag)) :
  process_range node m = Ok m' ->
  exists rs, (forall e, e ∈ rs -> own_entry node e) /\ emits (process_range node) rs.
Proof.
  unfold Engine.process_range, own_entry, begin_of, end_of. fold (kind_of node).
  destruct (get_or "range" JNull node) as [| | | | |[|kv r]];
    try (intros _; emits_nothing).
  set (range_info := kv :: r).
  set (b := get_or "begin" JNull range_info). set (e := get_or "end" JNull range_info).
  assert (forall loc m1 m2,
    process_location loc (kind_of node) m1 = Ok m2 ->
    (forall n, line_of loc = Some n -> line_of b = Some n \/ line_of e = Some n) ->
    exists rs : list (Z * tag),
      (forall x, x ∈ rs ->
         (line_of (loc_of node) = Some (fst x) \/ line_of b = Some (fst x)
          \/ line_of e = Some (fst x)) /\
         fst x <> 0 /\ truthy (kind_of node) = true /\
         hash_key (kind_of node) = Ok (snd x) /\
         should_include_node (kind_of node) filter_config = Ok true)
      /\ emits (process_location loc (kind_of node)) rs) as Hloc.
  { intros loc m1 m2 (rs & Hrs & Hemit)%process_location_emits Hwhich.
    exists rs. split; [|done]. intros x (Hl & ? & ? & ? & ?)%Hrs.
    split; [|done]. destruct (Hwhich _ Hl); auto. }
  destruct (truthy b) eqn:Hb.
  - destruct (process_location b (kind_of node) m) as [m1|] eqn:Hm1; cbn; [|done].
    destruct (Hloc b m m1 Hm1) as (rs1 & Hrs1 & Hemit1).
    { by left. }
    destruct (truthy e && negb (py_eq e b)).
    + intros (rs2 & Hrs2 & Hemit2)%Hloc; [|by right].
      exists (rs1 ++ rs2). split.
      * intros x [?|?]%elem_of_app; auto.
      * intros m0. rewrite Hemit1. cbn. by rewrite Hemit2, add_all_app.
    + intros _. exists rs1. split; [done|].
      intros m0. by rewrite Hemit1.
  - cbn. destruct (truthy e && negb (py_eq e b)); [|intros _; emits_nothing].
    intros (rs2 & Hrs2 & Hemit2)%Hloc; [|by right].
    exists rs2. done.
Qed.

Lemma process_node_emits (node : list (string * json)) (m m' : gmap Z (gset tag)) :
  process_node node m = Ok m' ->
  exists rs, (forall e, e ∈ rs -> own_entry node e) /\ emits (process_node node) rs.
Proof.
  unfold Engine.process_node.
  destruct (process_loc node m) as [m1|] eqn:Hm1; cbn; [|done].
  apply process_loc_emits in Hm1 as (rs1 & Hrs1 & Hemit1).
  intros (rs2 & Hrs2 & Hemit2)%process_range_emits.
  exists (rs1 ++ rs2). split.
  - intros e [?|?]%elem_of_app; auto.
  - by apply emits_bind.
Qed.

(** The two loops of the traversal, one step at a time. *)
Lemma collect_list_cons (item : json) (items : list json) (m : gmap Z (gset tag)) :
  collect (JList (item :: items)) m
  = do m1 <- collect item m; collect (JList items) m1.
Proof. reflexivity. Qed.

Lemma collect_dict (fields : list (string * json)) (m : gmap Z (gset tag)) :
  collect (JDict fields) m
  = do m1 <- process_node fields m; collect (JList (values fields)) m1.
Proof.
  cbn [collect_line_annotations].
  destruct (process_node fields m) as [m1|]; cbn [bind]; [|done].
  revert m1. induction fields as [|[k v] fields IH]; intros m1; [done|].
  cbn [values map snd].
  destruct (collect v m1) as [m2|]; cbn [bind]; [|done]. apply IH.
Qed.

Definition accepted (e : Z * tag) : Prop :=
  should_include_node (tag_value (snd e)) filter_config = Ok true.

(** A visit that returns adds entries the profile accepts, and adds the
    same entries to any other map. *)
Definition visit_emits (v : json) : Prop :=
  forall m m', collect v m = Ok m' ->
  exists rs, Forall accepted rs /\ emits (collect v) rs.

Lemma collect_list_emits (items : list json) :
  Forall visit_emits items -> visit_emits (JList items).
Proof.
  induction 1 as [|item items Hitem _ IH]; intros m m'.
  - intros _. exists []. split; [constructor | by intros ?].
  - rewrite collect_list_cons.
    destruct (collect item m) as [m1|] eqn:Hm1; cbn [bind]; [|done].
    apply Hitem in Hm1 as (rs1 & Hrs1 & Hemit1).
    intros (rs2 & Hrs2 & Hemit2)%IH.
    exists (rs1 ++ rs2). split; [by apply Forall_app|].
    intros m0. rewrite collect_list_cons. by apply emits_bind.
Qed.

Lemma collect_emits (v : json) : visit_emits v.
Proof.
  induction v as [|b|n|s|items IH|fields IH] using json_induction;
    try (intros m m' _; exists []; split; [constructor | by intros ?]).
  - by apply collect_list_emits.
  - intros m m'. rewrite collect_dict.
    destruct (process_node fields m) as [m1|] eqn:Hm1; cbn [bind]; [|done].
    apply process_node_emits in Hm1 as (rs1 & Hrs1 & Hemit1).
    intros (rs2 & Hrs2 & Hemit2)%collect_list_emits;
      [|by apply Forall_fmap].
    exists (rs1 ++ rs2). split.
    + apply Forall_app. split; [|done]. apply Forall_forall.
      intros e (_ & _ & _ & Hkey & Hinc)%Hrs1.
      by apply (should_include_tag_value _ _ _ _ Hkey).
    + intros m0. rewrite collect_dict. by apply emits_bind.
Qed.

(** A visit only adds tags, and everything a visit adds to the empty map
    it adds to any map. *)
Lemma collect_from_empty (v : json) (m m' : gmap Z (gset tag)) :
  collect v m = Ok m' ->
  (forall L, tags_at m L ⊆ tags_at m' L) /\
  exists mv, collect v ∅ = Ok mv /\ forall L, tags_at mv L ⊆ tags_at m' L.
Proof.
  intros Hm. destruct (collect_emits v m m' Hm) as (rs & _ & Hemit).
  rewrite (emits_result _ _ _ _ Hemit Hm). split.
  - intros L. apply tags_at_add_all_mono.
  - exists (add_all ∅ rs). split; [apply Hemit|].
    intros L t [Ht|Ht]%elem_of_add_all; apply elem_of_add_all; [|by right].
    by apply not_elem_of_empty in Ht.
Qed.

Lemma collect_item_included (child : json) (items : list json) (m m' : gmap Z (gset tag)) :
  child ∈ items ->
  collect (JList items) m = Ok m' ->
  exists mc, collect child ∅ = Ok mc /\ forall L, tags_at mc L ⊆ tags_at m' L.
Proof.
  intros Hin. revert m. induction Hin as [child items|child item items _ IH]; intros m;
    rewrite collect_list_cons;
    destruct (collect _ m) as [m1|] eqn:Hm1; cbn [bind]; try done.
  - intros [Hmono _]%collect_from_empty.
    apply collect_from_empty in Hm1 as (_ & mc & Hmc & Hsub).
    exists mc. split; [done|]. intros L. etrans; [apply Hsub | apply Hmono].
  - apply IH.
Qed.

Lemma collect_nested_included (child parent : json) (m m' : gmap Z (gset tag)) :
  nested_in child parent ->
  collect parent m = Ok m' ->
  exists mc, collect child ∅ = Ok mc /\ forall L, tags_at mc L ⊆ tags_at m' L.
Proof.
  intros [key fields Hin|items Hin].
  - rewrite collect_dict.
    destruct (process_node fields m) as [m1|]; cbn [bind]; [|done].
    apply collect_item_included. unfold values.
    apply (list_elem_of_fmap_2 snd) in Hin. exact Hin.
  - by apply collect_item_included.
Qed.

Lemma collect_reachable_included (node root : json) (m m' : gmap Z (gset tag)) :
  reachable node root ->
  collect root m = Ok m' ->
  exists mn, collect node ∅ = Ok mn /\ forall L, tags_at mn L ⊆ tags_at m' L.
Proof.
  unfold reachable. intros Hreach. revert m m'.
  induction Hreach as [root|root mid node Hstep _ IH]; intros m m' Hm.
  - by apply collect_from_empty in Hm as [_ ?].
  - destruct (collect_nested_included _ _ _ _ Hstep Hm) as (mc & Hmc & Hsub).
    destruct (IH _ _ Hmc) as (mn & Hmn & Hsub').
    exists mn. split; [done|]. intros L. etrans; [apply Hsub' | apply Hsub].
Qed.

(** The ownership test of [process_location], for a location with a line
    and a kind that is hashable and accepted. *)
Lemma process_location_owned (fields : list (string * json)) (kind : json)
    (n : Z) (t : tag) (m : gmap Z (gset tag)) :
  as_int (get_or "line" JNull fields) = Some n -> n <> 0 ->
  truthy kind = true -> hash_key kind = Ok t ->
  should_include_node kind filter_config = Ok true ->
  (truthy (get_or "file" (JStr "") fields) = false ->
   process_location (JDict fields) kind m = Ok (add_tag n t m)) /\
  (forall f, get_or "file" (JStr "") fields = JStr f -> f <> "" ->
   process_location (JDict fields) kind m
   = Ok (if denotes_target target_file_path f then add_tag n t m else m)).
Proof.
  intros Hline Hn Hk Hkey Hinc.
  assert (register n kind m = Ok (add_tag n t m)) as Hreg.
  { unfold Engine.register, add_kind. by rewrite Hinc; cbn; rewrite Hkey. }
  unfold Engine.process_location.
  destruct fields as [|kv fields]; [done|]. set (d := kv :: fields) in *.
  rewrite Hline, (as_int_truthy _ _ Hline), Hk.
  apply Z.eqb_neq in Hn. rewrite Hn. cbn [negb andb]. split.
  - by intros ->.
  - intros f Hf Hne. rewrite Hf. cbn [truthy].
    apply String.eqb_neq in Hne. rewrite Hne. cbn [negb].
    unfold denotes_target.
    by destruct (_ || _).
Qed.

Lemma process_location_resolves (loc kind : json) (n : Z) (t : tag)
    (m : gmap Z (gset tag)) :
  resolves target_file_path loc n ->
  truthy kind = true -> hash_key kind = Ok t ->
  should_include_node kind filter_config = Ok true ->
  process_location loc kind m = Ok (add_tag n t m).
Proof.
  intros (fields & -> & Hline & Hn & Hfile) Hk Hkey Hinc.
  destruct (process_location_owned fields kind n t m Hline Hn Hk Hkey Hinc)
    as [Hnone Hsome].
  destruct Hfile as [Hfalsy|(f & Hf & Hne & Hden)]; [by apply Hnone|].
  rewrite (Hsome f Hf Hne). by rewrite Hden.
Qed.

Lemma resolves_truthy (loc : json) (n : Z) :
  resolves target_file_path loc n -> truthy loc = true /\ line_of loc = Some n.
Proof.
  intros (fields & -> & Hline & _). split; [|done].
  by destruct fields.
Qed.

Lemma py_eq_line_of (a b : json) (n : Z) :
  py_eq a b = true -> line_of a = Some n -> line_of b = Some n.
Proof.
  destruct a as [| | | | |d]; try done. destruct b as [| | | | |d']; try done.
  intros Heq. cbn. unfold get_or.
  destruct (dict_get "line" d) as [v|] eqn:Hv; [|done].
  destruct (py_eq_dict_get _ _ _ _ Heq Hv) as (v' & -> & Hvv').
  by apply as_int_py_eq.
Qed.

Lemma elements_count_once (X : gset tag) (t : tag) :
  t ∈ X -> count_occ tag_eq_dec (elements X) t = 1%nat.
Proof.
  intros Ht. apply NoDup_count_occ'.
  - apply NoDup_ListNoDup, NoDup_elements.
  - by apply list_elem_of_In, elem_of_elements.
Qed.

(** Both ends of a range that resolve receive the kind. *)
Lemma process_range_both (node : list (string * json)) (lb le : Z) (t : tag)
    (m m' : gmap Z (gset tag)) :
  resolves target_file_path (begin_of node) lb ->
  resolves target_file_path (end_of node) le ->
  truthy (kind_of node) = true -> hash_key (kind_of node) = Ok t ->
  should_include_node (kind_of node) filter_config = Ok true ->
  process_range node m = Ok m' ->
  t ∈ tags_at m' lb /\ t ∈ tags_at m' le.
Proof.
  intros Hb He Hk Hkey Hinc.
  pose proof (resolves_truthy _ _ Hb) as [Hbt Hbl].
  pose proof (resolves_truthy _ _ He) as [Het Hel].
  unfold Engine.process_range. fold (kind_of node).
  unfold begin_of, end_of in *.
  destruct (get_or "range" JNull node) as [| | | | |[|kv r]]; try done.
  set (range_info := kv :: r) in *.
  rewrite Hbt, Het.
  rewrite (process_location_resolves _ _ lb t m Hb Hk Hkey Hinc). cbn [bind andb].
  destruct (py_eq _ _) eqn:Heq; cbn [negb].
  - intros [= <-]. rewrite (py_eq_line_of _ _ _ Heq Hel) in Hbl.
    injection Hbl as ->. rewrite tags_at_add_tag, decide_True by done.
    split; apply elem_of_union_r, elem_of_singleton; done.
  - rewrite (process_location_resolves _ _ le t _ He Hk Hkey Hinc).
    intros [= <-]. rewrite !tags_at_add_tag.
    destruct (decide (lb = lb)) as [_|]; [|done].
    destruct (decide (le = le)) as [_|]; [|done].
    destruct (decide (le = lb)), (decide (lb = le)); set_solver.
Qed.

End WithTarget.

End EngineFacts.

Section Correlation.
Import Py Filter Engine Locations EngineFacts.
Context `{OsPath}.
Variable target_file_path : string.
Variable filter_config : string.

Local Abbreviation process_location := (process_location target_file_path filter_config).
Local Abbreviation process_node := (process_node target_file_path filter_config).
Local Abbreviation collect := (collect_line_annotations target_file_path filter_config).

(** C1, filter soundness.  Whatever the tree, the target file and the
    profile name, every tag of every line of the map the engine returns
    from the empty map is accepted by the profile's predicate. *)
Theorem filter_soundness (tree : json) (line_map : gmap Z (gset tag)) (L : Z) (t : tag) :
  collect tree ∅ = Ok line_map ->
  t ∈ tags_at line_map L ->
  should_include_node (tag_value t) filter_config = Ok true.
Proof.
  intros Hm Ht. destruct (collect_emits _ _ tree ∅ line_map Hm) as (rs & Hacc & Hemit).
  rewrite (emits_result _ _ _ _ Hemit Hm) in Ht.
  apply elem_of_add_all in Ht as [Ht|Ht]; [by apply not_elem_of_empty in Ht|].
  by apply (proj1 (Forall_forall _ _) Hacc (L, t)).
Qed.


(** C6, location ownership as amended.  For a location with a line and a
    kind the profile accepts: when the location has no file field, or an
    empty one, the kind is added at the line, whatever the target; when
    its file field is a non-empty string, the kind is added if and only
    if the file denotes the target, by equality of the paths or else of
    their last components. *)
Theorem location_ownership (fields : list (string * json)) (kind : json)
    (n : Z) (t : tag) (m : gmap Z (gset tag)) :
  as_int (get_or "line" JNull fields) = Some n -> n <> 0 ->
  truthy kind = true -> hash_key kind = Ok t ->
  should_include_node kind filter_config = Ok true ->
  (dict_get "file" fields = None \/ dict_get "file" fields = Some (JStr "") ->
   process_location (JDict fields) kind m = Ok (add_tag n t m)) /\
  (forall f, dict_get "file" fields = Some (JStr f) -> f <> "" ->
   process_location (JDict fields) kind m
   = Ok (if denotes_target target_file_path f then add_tag n t m else m)) /\
  t ∈ tags_at (add_tag n t m) n.
Proof.
  intros Hline Hn Hk Hkey Hinc.
  destruct (process_location_owned target_file_path filter_config
              fields kind n t m Hline Hn Hk Hkey Hinc) as [Hnone Hsome].
  split; [|split].
  - intros Hfile. apply Hnone. unfold get_or. by destruct Hfile as [-> | ->].
  - intros f Hf Hne. apply Hsome; [|done]. unfold get_or. by rewrite Hf.
  - rewrite tags_at_add_tag, decide_True by done.
    by apply elem_of_union_r, elem_of_singleton.
Qed.

(** C7, per-node filtering.  A dict registers for itself and then every
    one of its values is visited, a list is visited element by element;
    what a dict registers for itself depends on its kind, location and
    range only; and whatever a node reached from the root through values
    and elements contributes when visited alone is in the result for the
    root, with no condition on the nodes above it. *)
Theorem per_node_filtering :
  (forall fields m,
     collect (JDict fields) m
     = do m1 <- process_node fields m; collect (JList (values fields)) m1) /\
  (forall item items m,
     collect (JList (item :: items)) m
     = do m1 <- collect item m; collect (JList items) m1) /\
  (forall node node' m,
     kind_of node = kind_of node' -> loc_of node = loc_of node' ->
     get_or "range" JNull node = get_or "range" JNull node' ->
     process_node node m = process_node node' m) /\
  (forall node root line_map,
     reachable node root ->
     collect root ∅ = Ok line_map ->
     exists own, collect node ∅ = Ok own /\
       forall L, tags_at own L ⊆ tags_at line_map L).
Proof.
  split; [apply collect_dict|]. split; [apply collect_list_cons|]. split.
  - intros node node' m Hkind Hloc Hrange.
    unfold Engine.process_node, process_loc, process_range.
    unfold kind_of, loc_of in *. by rewrite Hkind, Hloc, Hrange.
  - intros node root line_map Hreach Hm.
    by apply (collect_reachable_included _ _ node root ∅).
Qed.

End Correlation.

Section CorrelationExamples.
Import Py Filter Engine Locations EngineFacts Samples.

Lemma filter_soundness_witness :
  collect_line_annotations (H := unix) "/work/a.cpp" "clean" var_decl ∅
  = Ok (add_all ∅ [(2, TStr "VarDecl"); (2, TStr "IntegerLiteral")]) /\
  TStr "IntegerLiteral"
    ∈ tags_at (add_all ∅ [(2, TStr "VarDecl"); (2, TStr "IntegerLiteral")]) 2 /\
  should_include_node (JStr "IntegerLiteral") "clean" = Ok true.
Proof.
  assert (collect_line_annotations (H := unix) "/work/a.cpp" "clean" var_decl ∅
          = Ok (add_all ∅ [(2, TStr "VarDecl"); (2, TStr "IntegerLiteral")])) as Hm
    by (vm_compute; reflexivity).
  assert (TStr "IntegerLiteral"
            ∈ tags_at (add_all ∅ [(2, TStr "VarDecl"); (2, TStr "IntegerLiteral")]) 2) as Ht
    by (apply elem_of_add_all; right; repeat constructor).
  exact (conj Hm (conj Ht (filter_soundness _ _ _ _ _ _ Hm Ht))).
Defined.

Lemma resolves_at_line (target : string) (line col : Z) :
  line <> 0 -> resolves (H := unix) target (at_line line col) line.
Proof.
  intros Hne. exists [("line", JInt line); ("col", JInt col)].
  split; [reflexivity|]. split; [reflexivity|]. split; [exact Hne|]. by left.
Qed.



Lemma location_ownership_witness :
  (process_location (H := unix) "/work/a.c" "clean"
     (JDict [("line", JInt 7); ("col", JInt 5)]) (JStr "VarDecl") ∅
   = Ok (add_tag 7 (TStr "VarDecl") ∅)) /\
  (process_location (H := unix) "/work/a.c" "clean"
     (JDict [("file", JStr "/work/src/../a.c"); ("line", JInt 7)]) (JStr "VarDecl") ∅
   = Ok (if denotes_target (H := unix) "/work/a.c" "/work/src/../a.c"
         then add_tag 7 (TStr "VarDecl") ∅ else ∅)) /\
  denotes_target (H := unix) "/work/a.c" "/work/src/../a.c" = true /\
  (process_location (H := unix) "/work/a.c" "clean"
     (JDict [("file", JStr "/usr/include/stdio.h"); ("line", JInt 7)]) (JStr "VarDecl") ∅
   = Ok (if denotes_target (H := unix) "/work/a.c" "/usr/include/stdio.h"
         then add_tag 7 (TStr "VarDecl") ∅ else ∅)) /\
  denotes_target (H := unix) "/work/a.c" "/usr/include/stdio.h" = false.
Proof.
  split; [|split; [|split; [reflexivity|split; [|reflexivity]]]].
  - apply (location_ownership "/work/a.c" "clean"
             [("line", JInt 7); ("col", JInt 5)] (JStr "VarDecl") 7 (TStr "VarDecl") ∅);
      try reflexivity; [lia | by left].
  - apply (location_ownership "/work/a.c" "clean"
             [("file", JStr "/work/src/../a.c"); ("line", JInt 7)]
             (JStr "VarDecl") 7 (TStr "VarDecl") ∅);
      try reflexivity; [lia | discriminate].
  - apply (location_ownership "/work/a.c" "clean"
             [("file", JStr "/usr/include/stdio.h"); ("line", JInt 7)]
             (JStr "VarDecl") 7 (TStr "VarDecl") ∅);
      try reflexivity; [lia | discriminate].
Defined.

(** C6 as the specification words it fails: a location that carries a file field,
    the empty string, is included although the empty name does not denote
    the target, neither by its path nor by its last component. *)
Lemma location_ownership_counterexample :
  dict_get "file" [("file", JStr ""); ("line", JInt 3)] = Some (JStr "") /\
  denotes_target (H := unix) "/work/a.c" "" = false /\
  abspath (OsPath := unix) "" <> abspath (OsPath := unix) "/work/a.c" /\
  process_location (H := unix) "/work/a.c" "clean"
    (JDict [("file", JStr ""); ("line", JInt 3)]) (JStr "VarDecl") ∅
  = Ok (add_tag 3 (TStr "VarDecl") ∅) /\
  TStr "VarDecl" ∈ tags_at (add_tag 3 (TStr "VarDecl") ∅) 3.
Proof.
  split; [reflexivity|]. split; [reflexivity|]. split; [by vm_compute|].
  split; [vm_compute; reflexivity|].
  rewrite tags_at_add_tag, decide_True by done.
  by apply elem_of_union_r, elem_of_singleton.
Qed.

Lemma per_node_filtering_witness :
  reachable literal var_decl /\
  should_include_node (JStr "ParenExpr") "clean" = Ok false /\
  collect_line_annotations (H := unix) "/work/a.cpp" "clean" var_decl ∅
  = Ok (add_all ∅ [(2, TStr "VarDecl"); (2, TStr "IntegerLiteral")]) /\
  exists own,
    collect_line_annotations (H := unix) "/work/a.cpp" "clean" literal ∅ = Ok own /\
    forall L, tags_at own L
              ⊆ tags_at (add_all ∅ [(2, TStr "VarDecl"); (2, TStr "IntegerLiteral")]) L.
Proof.
  assert (reachable literal var_decl) as Hreach.
  { unfold reachable, var_decl.
    eapply rtc_l; [apply (nested_value _ "inner"); repeat constructor|].
    eapply rtc_l; [apply nested_item; repeat constructor|].
    eapply rtc_l; [apply (nested_value _ "inner"); repeat constructor|].
    eapply rtc_l; [apply nested_item; repeat constructor|].
    apply rtc_refl. }
  assert (collect_line_annotations (H := unix) "/work/a.cpp" "clean" var_decl ∅
          = Ok (add_all ∅ [(2, TStr "VarDecl"); (2, TStr "IntegerLiteral")])) as Hm
    by (vm_compute; reflexivity).
  split; [exact Hreach|]. split; [reflexivity|]. split; [exact Hm|].
  exact (proj2 (proj2 (proj2 (per_node_filtering "/work/a.cpp" "clean")))
           literal var_decl _ Hreach Hm).
Defined.

End CorrelationExamples.

(** * Further properties *)

(** ** The synthesizer *)

Module ExplainerOrder.
Import PyStr PyStrFacts Explainer SpecWords ExplainerFacts.

Lemma app_nonempty_l (s t : string) : s <> "" -> s +:+ t <> "".
Proof. by destruct s. Qed.

Lemma sorted_le (l : list string) : Sorted String.le (sorted l).
Proof.
  pose proof (sorted_Sorted l) as Hs.
  induction Hs as [|x l' _ IH Hhd]; constructor; [exact IH|].
  destruct Hhd as [|y l'' Hxy]; constructor.
  unfold String.le. unfold str_le in Hxy. by rewrite Hxy.
Qed.

(** [sorted] forgets the order of its argument. *)
Lemma sorted_unique (l l' : list string) : l ≡ₚ l' -> sorted l = sorted l'.
Proof.
  intros Hperm. apply (Sorted_unique String.le); [apply sorted_le..|].
  by rewrite !sorted_perm.
Qed.

Lemma match_patterns_some (nodes : list string) (rules : list (list string * string))
    (text : string) :
  match_patterns nodes rules = Some text ->
  exists req, (req, text) ∈ rules /\ pattern_matches nodes req = true.
Proof.
  induction rules as [|[r t] rules IH]; [done|].
  cbn. destruct (pattern_matches nodes r) eqn:Hm.
  - intros [= <-]. exists r. split; [by left | done].
  - intros (req & Hin & Hreq)%IH. exists req. split; [by right | done].
Qed.

Lemma lookup_explanation_in (node e : string) (tbl : list (string * string)) :
  lookup_explanation node tbl = Some e -> (node, e) ∈ tbl.
Proof.
  induction tbl as [|[k v] tbl IH]; [done|].
  cbn. destruct (String.eqb_spec node k) as [->|_].
  - intros [= <-]. by left.
  - intros ?%IH. by right.
Qed.

Lemma pattern_texts_nonempty : Forall (fun rule => snd rule <> "") patterns.
Proof. unfold patterns. repeat (constructor; [discriminate|]). constructor. Qed.

Lemma descriptions_nonempty : Forall (fun entry => snd entry <> "") explanations.
Proof. unfold explanations. repeat (constructor; [discriminate|]). constructor. Qed.

Lemma describe_nonempty (node : string) : describe node <> "".
Proof.
  unfold describe. destruct (lookup_explanation node explanations) as [e|] eqn:He.
  - apply lookup_explanation_in in He.
    exact (proj1 (Forall_forall _ _) descriptions_nonempty _ He).
  - discriminate.
Qed.

Lemma combine_nonempty (ds : list string) :
  ds <> [] -> Forall (fun d => d <> "") ds -> combine ds <> "".
Proof.
  intros Hne Hall. destruct ds as [|d0 [|d1 [|d2 ds]]]; [done|..].
  - cbn. by inversion Hall.
  - cbn. apply app_nonempty_l. by inversion Hall.
  - discriminate.
Qed.

(** [lower] leaves the whitespace characters, and [strip] the case. *)
Lemma lower_ascii_idem (c : ascii) : lower_ascii (lower_ascii c) = lower_ascii c.
Proof. destruct c as [[] [] [] [] [] [] [] []]; reflexivity. Qed.

Lemma is_space_lower (c : ascii) : is_space (lower_ascii c) = is_space c.
Proof. destruct c as [[] [] [] [] [] [] [] []]; reflexivity. Qed.

Lemma py_lower_idem (s : string) : py_lower (py_lower s) = py_lower s.
Proof.
  induction s as [|c s IH]; [done|]. cbn. by rewrite lower_ascii_idem, IH.
Qed.

(** [lower_ascii] changes no byte above 127, and makes none. *)
Lemma lower_ascii_high (c : ascii) :
  lower_ascii c = c \/ (N_of_ascii c < 128 /\ N_of_ascii (lower_ascii c) < 128)%N.
Proof. destruct c as [[] [] [] [] [] [] [] []]; ((by left) || (by right)). Qed.

Lemma is_space2_lower (c d : ascii) :
  is_space2 (lower_ascii c) (lower_ascii d) = is_space2 c d.
Proof.
  destruct (lower_ascii_high c) as [->|Hc], (lower_ascii_high d) as [->|Hd];
    [reflexivity|..].
  all: transitivity false; [|symmetry]; apply not_true_iff_false.
  all: intros [? ?]%is_space2_high; lia.
Qed.

Lemma is_space3_lower (c d e : ascii) :
  is_space3 (lower_ascii c) (lower_ascii d) (lower_ascii e) = is_space3 c d e.
Proof.
  destruct (lower_ascii_high c) as [->|Hc], (lower_ascii_high d) as [->|Hd],
    (lower_ascii_high e) as [->|He]; [reflexivity|..].
  all: transitivity false; [|symmetry]; apply not_true_iff_false.
  all: intros (? & ? & ?)%is_space3_high; lia.
Qed.

Lemma py_lower_lstrip (s : string) : py_lower (lstrip s) = lstrip (py_lower s).
Proof.
  remember (String.length s) as n eqn:Hn. revert s Hn.
  induction n as [n IH] using lt_wf_ind. intros s ->.
  destruct s as [|c s1]; [reflexivity|].
  cbn [lstrip py_lower]. rewrite is_space_lower.
  destruct (is_space c); [apply (IH (String.length s1)); [cbn; lia | done]|].
  destruct s1 as [|d s2]; [reflexivity|].
  cbn [py_lower]. rewrite is_space2_lower.
  destruct (is_space2 c d); [apply (IH (String.length s2)); [cbn; lia | done]|].
  destruct s2 as [|e s3]; [reflexivity|].
  cbn [py_lower]. rewrite is_space3_lower.
  destruct (is_space3 c d e); [apply (IH (String.length s3)); [cbn; lia | done]|].
  reflexivity.
Qed.

Lemma py_lower_empty (s : string) : String.eqb (py_lower s) "" = String.eqb s "".
Proof. by destruct s. Qed.

Lemma py_lower_rstrip (s : string) : py_lower (rstrip s) = rstrip (py_lower s).
Proof.
  induction s as [|c s IH]; [done|].
  cbn [rstrip py_lower].
  change (String (lower_ascii c) (py_lower s)) with (py_lower (String c s)) at 1.
  rewrite <- py_lower_lstrip, py_lower_empty.
  destruct (String.eqb (lstrip (String c s)) ""); [reflexivity|].
  cbn [py_lower]. by rewrite IH.
Qed.

Lemma py_lower_strip (s : string) : py_lower (py_strip s) = py_strip (py_lower s).
Proof. unfold py_strip. by rewrite py_lower_rstrip, py_lower_lstrip. Qed.

End ExplainerOrder.

Section SynthesizerMore.
Import PyStr PyStrFacts Explainer SpecWords ExplainerFacts ExplainerOrder.

(** X1.  The explanation of a line is empty exactly when the line has no
    tags: every rule text, every catalog description and the generic
    text of an unknown tag are non-empty. *)
Theorem explanation_empty_iff (tags : list string) (line : string) :
  explain_ast_nodes tags line = "" <-> tags = [].
Proof.
  split; [|by intros ->].
  intros Hempty. destruct tags as [|t tags]; [done|]. exfalso. revert Hempty.
  unfold explain_ast_nodes.
  destruct (match_patterns _ patterns) as [text|] eqn:Hm.
  - apply match_patterns_some in Hm as (req & Hin & _).
    exact (proj1 (Forall_forall _ _) pattern_texts_nonempty _ Hin).
  - apply combine_nonempty.
    + intros Hnil%fmap_nil_inv. by apply sorted_nil_inv in Hnil.
    + apply Forall_fmap, Forall_forall. intros x _. apply describe_nonempty.
Qed.

(** X2.  The explanation depends on the tags as a collection only: two
    lists with the same tags in another order give the same plain and the
    same detailed explanation. *)
Theorem explanation_order_independent (tags tags' : list string) (line : string) :
  tags ≡ₚ tags' ->
  explain_ast_nodes tags line = explain_ast_nodes tags' line /\
  get_detailed_explanation tags line = get_detailed_explanation tags' line.
Proof.
  intros Hperm.
  assert (explain_ast_nodes tags line = explain_ast_nodes tags' line) as Heq.
  { unfold explain_ast_nodes. rewrite (sorted_unique _ _ Hperm).
    destruct tags as [|t tags], tags' as [|t' tags']; try done.
    - by apply Permutation_nil_cons in Hperm.
    - symmetry in Hperm. by apply Permutation_nil_cons in Hperm. }
  split; [exact Heq|]. by rewrite !detailed_decompose, Heq.
Qed.

Lemma explanation_order_independent_witness :
  ["VarDecl"; "IntegerLiteral"; "DeclStmt"] ≡ₚ ["DeclStmt"; "VarDecl"; "IntegerLiteral"] /\
  explain_ast_nodes ["VarDecl"; "IntegerLiteral"; "DeclStmt"] "int x = 5;"
  = explain_ast_nodes ["DeclStmt"; "VarDecl"; "IntegerLiteral"] "int x = 5;" /\
  get_detailed_explanation ["VarDecl"; "IntegerLiteral"; "DeclStmt"] "int x = 5;"
  = get_detailed_explanation ["DeclStmt"; "VarDecl"; "IntegerLiteral"] "int x = 5;".
Proof.
  assert (["VarDecl"; "IntegerLiteral"; "DeclStmt"]
          ≡ₚ ["DeclStmt"; "VarDecl"; "IntegerLiteral"]) as Hperm.
  { symmetry. apply (Permutation_cons_append ["VarDecl"; "IntegerLiteral"] "DeclStmt"). }
  exact (conj Hperm (explanation_order_independent _ _ "int x = 5;" Hperm)).
Defined.

(** X3.  The detailed explanation does not change when the source line
    is put in lower case or stripped of the whitespace around it (ASCII
    text). *)
Theorem detailed_case_and_margin_insensitive (tags : list string) (line : string) :
  get_detailed_explanation tags (py_lower line) = get_detailed_explanation tags line /\
  get_detailed_explanation tags (py_strip line) = get_detailed_explanation tags line.
Proof.
  rewrite !detailed_decompose. split.
  - by rewrite py_lower_idem.
  - by rewrite py_lower_strip, py_strip_idem.
Qed.

End SynthesizerMore.

(** ** The filter profiles and the colours *)

Section ProfilesMore.
Import PyStr PyStrFacts Filter Render Schema.

Lemma ok_inj {A : Type} (a b : A) : Ok a = Ok b -> a = b.
Proof. by intros [= ->]. Qed.

Ltac mem_cases H :=
  apply mem_elem_of in H;
  repeat (apply elem_of_cons in H as [->|H]);
  [..|by apply elem_of_nil in H].

(** X4.  The profiles are nested: a kind that "minimal" accepts is
    accepted by "declarations" or by "statements"; a kind that either of
    those accepts is accepted by "clean"; and no kind is accepted by both
    "declarations" and "statements". *)
Theorem profile_hierarchy (kind : json) :
  (should_include_node kind "minimal" = Ok true ->
   should_include_node kind "declarations" = Ok true \/
   should_include_node kind "statements" = Ok true) /\
  (should_include_node kind "declarations" = Ok true ->
   should_include_node kind "clean" = Ok true) /\
  (should_include_node kind "statements" = Ok true ->
   should_include_node kind "clean" = Ok true) /\
  ~ (should_include_node kind "declarations" = Ok true /\
     should_include_node kind "statements" = Ok true).
Proof.
  destruct kind as [| | |k| |]; try (repeat split; try discriminate; by intros [? _]).
  change (should_include_node (JStr k) "minimal") with (@Ok bool (mem k important_nodes)).
  change (should_include_node (JStr k) "declarations") with (@Ok bool (mem k decl_nodes)).
  change (should_include_node (JStr k) "statements") with (@Ok bool (mem k stmt_nodes)).
  change (should_include_node (JStr k) "clean") with (@Ok bool (negb (mem k noise_nodes))).
  repeat split.
  - intros Hk%ok_inj. mem_cases Hk; vm_compute; auto.
  - intros Hk%ok_inj. mem_cases Hk; reflexivity.
  - intros Hk%ok_inj. mem_cases Hk; reflexivity.
  - intros [Hd%ok_inj Hs%ok_inj]. mem_cases Hd; discriminate Hs.
Qed.

Lemma profile_hierarchy_witness :
  should_include_node (JStr "VarDecl") "minimal" = Ok true /\
  (should_include_node (JStr "VarDecl") "declarations" = Ok true \/
   should_include_node (JStr "VarDecl") "statements" = Ok true).
Proof.
  assert (should_include_node (JStr "VarDecl") "minimal" = Ok true) as Hmin by reflexivity.
  exact (conj Hmin (proj1 (profile_hierarchy (JStr "VarDecl")) Hmin)).
Defined.

(** X5.  The filter raises exactly when the kind cannot be hashed (a list
    or a dict) and the profile is one of the four that test membership in
    a set; under any other profile name nothing is raised. *)
Theorem filter_raises_iff (kind : json) (filter_config : string) :
  should_include_node kind filter_config = Raise TypeError <->
  hashable kind = false /\
  (filter_config = "minimal" \/ filter_config = "clean" \/
   filter_config = "declarations" \/ filter_config = "statements").
Proof.
  unfold should_include_node.
  destruct (String.eqb_spec filter_config "minimal") as [->|H1].
  { destruct kind; cbn; split; try done; try (by intros [? _]); auto. }
  destruct (String.eqb_spec filter_config "clean") as [->|H2].
  { destruct kind; cbn; split; try done; try (by intros [? _]); auto. }
  destruct (String.eqb_spec filter_config "declarations") as [->|H3].
  { destruct kind; cbn; split; try done; try (by intros [? _]); auto. }
  destruct (String.eqb_spec filter_config "statements") as [->|H4].
  { destruct kind; cbn; split; try done; try (by intros [? _]); auto. }
  split; [done|]. intros [_ [?|[?|[?|?]]]]; done.
Qed.

(** X6.  A kind that is hashable but not a string (a number, a boolean)
    is rejected by "minimal", "declarations" and "statements" and accepted
    by "clean". *)
Theorem filter_non_string_kind (kind : json) :
  hashable kind = true ->
  (forall s, kind <> JStr s) ->
  should_include_node kind "minimal" = Ok false /\
  should_include_node kind "declarations" = Ok false /\
  should_include_node kind "statements" = Ok false /\
  should_include_node kind "clean" = Ok true.
Proof.
  intros Hhash Hstr. destruct kind as [| | |s| |]; try done.
  by destruct (Hstr s).
Qed.

Lemma filter_non_string_kind_witness :
  should_include_node (JInt 5) "minimal" = Ok false /\
  should_include_node (JInt 5) "declarations" = Ok false /\
  should_include_node (JInt 5) "statements" = Ok false /\
  should_include_node (JInt 5) "clean" = Ok true.
Proof. apply (filter_non_string_kind (JInt 5)); [reflexivity | discriminate]. Defined.

(** X7.  The colours follow the profiles: a kind shown in a colour other
    than white is accepted by "clean" and by "declarations" or
    "statements", and by "minimal" unless it is "ParmVarDecl"; a kind that
    "minimal" accepts has a colour other than white unless it is
    "CompoundStmt".  No kind makes [get_node_color] raise. *)
Theorem colors_follow_profiles (kind : json) :
  (get_node_color kind <> "white" ->
   should_include_node kind "clean" = Ok true /\
   (should_include_node kind "declarations" = Ok true \/
    should_include_node kind "statements" = Ok true) /\
   (kind <> JStr "ParmVarDecl" -> should_include_node kind "minimal" = Ok true)) /\
  (should_include_node kind "minimal" = Ok true ->
   kind <> JStr "CompoundStmt" -> get_node_color kind <> "white").
Proof.
  destruct kind as [| | |k| |]; try (split; [by intros []|discriminate]).
  split.
  - unfold get_node_color, in_list.
    repeat match goal with
           | |- context [if mem k ?l then _ else _] =>
               let Hin := fresh "Hin" in
               destruct (mem k l) eqn:Hin;
               [mem_cases Hin; intros _; vm_compute; repeat split; auto;
                intros Hne; by destruct Hne|]
           end.
    intros Hne. by destruct Hne.
  - change (should_include_node (JStr k) "minimal") with (@Ok bool (mem k important_nodes)).
    intros Hk%ok_inj. mem_cases Hk; try discriminate. intros Hne. by destruct Hne.
Qed.

Lemma colors_follow_profiles_witness :
  get_node_color (JStr "ParmVarDecl") <> "white" /\
  should_include_node (JStr "ParmVarDecl") "clean" = Ok true /\
  should_include_node (JStr "ParmVarDecl") "minimal" = Ok false /\
  get_node_color (JInt 7) = "white".
Proof.
  assert (get_node_color (JStr "ParmVarDecl") <> "white") as Hcol by discriminate.
  split; [exact Hcol|]. split; [|split; reflexivity].
  exact (proj1 (proj1 (colors_follow_profiles (JStr "ParmVarDecl")) Hcol)).
Defined.

End ProfilesMore.

(** ** The correlation engine, further *)

Module EngineMore.
Import Py Filter Engine Locations EngineFacts Schema.

Lemma lookup_add_tag (n : Z) (t : tag) (m : gmap Z (gset tag)) (L : Z) :
  add_tag n t m !! L
  = if decide (n = L) then Some (tags_at m L ∪ {[t]}) else m !! L.
Proof.
  unfold add_tag. rewrite lookup_insert. by destruct (decide (n = L)) as [->|].
Qed.

Lemma is_Some_add_all (m : gmap Z (gset tag)) (rs : list (Z * tag)) (L : Z) :
  is_Some (add_all m rs !! L) <-> is_Some (m !! L) \/ exists t, (L, t) ∈ rs.
Proof.
  revert m. induction rs as [|[n u] rs IH]; intros m.
  - cbn. split; [by left|]. intros [?|[t Ht]]; [done|]. by apply elem_of_nil in Ht.
  - rewrite add_all_cons, IH, lookup_add_tag.
    destruct (decide (n = L)) as [->|Hne]; split.
    + intros [_|[t Ht]]; right; [exists u; by left | exists t; by right].
    + intros _. left. by eexists.
    + intros [?|[t Ht]]; [by left | right; exists t; by right].
    + intros [?|[t Ht]]; [by left|]. right. exists t.
      apply elem_of_cons in Ht as [[= ? ?]|?]; [congruence|done].
Qed.

Lemma lookup_by_tags (o1 o2 : option (gset tag)) :
  (is_Some o1 <-> is_Some o2) -> default ∅ o1 = default ∅ o2 -> o1 = o2.
Proof.
  destruct o1 as [X|], o2 as [Y|]; cbn; intros Hsome Heq; try by subst.
  - destruct Hsome as [Hsome _]. by destruct Hsome as [? ?]; [eexists|].
  - destruct Hsome as [_ Hsome]. by destruct Hsome as [? ?]; [eexists|].
Qed.

(** The map after a sequence of additions depends on the entries as a set
    only. *)
Lemma add_all_ext (m : gmap Z (gset tag)) (rs1 rs2 : list (Z * tag)) :
  (forall e, e ∈ rs1 <-> e ∈ rs2) -> add_all m rs1 = add_all m rs2.
Proof.
  intros Hsame. apply map_eq. intros L. apply lookup_by_tags.
  - rewrite !is_Some_add_all. by setoid_rewrite Hsame.
  - apply set_eq. intros t. fold (tags_at (add_all m rs1) L) (tags_at (add_all m rs2) L).
    rewrite !elem_of_add_all. by rewrite Hsame.
Qed.

Lemma reachable_step (node child parent : json) :
  nested_in child parent -> reachable node child -> reachable node parent.
Proof. intros Hstep Hreach. by apply (rtc_l _ parent child node). Qed.

Section WithTarget.
Context `{OsPath}.
Variable target_file_path : string.
Variable filter_config : string.

Local Abbreviation process_location := (process_location target_file_path filter_config).
Local Abbreviation process_node := (process_node target_file_path filter_config).
Local Abbreviation collect := (collect_line_annotations target_file_path filter_config).

(** Whether a visit raises does not depend on the map it starts from. *)
Lemma collect_raise_everywhere (v : json) (m m2 : gmap Z (gset tag)) (e : exn) :
  collect v m = Raise e -> collect v m2 = Raise e.
Proof.
  intros Hm. destruct (collect v m2) as [m2'|e2] eqn:Hm2; [|by destruct e, e2].
  destruct (collect_emits _ _ v m2 m2' Hm2) as (rs & _ & Hemit).
  by rewrite Hemit in Hm.
Qed.

(** An entry comes from a node of the document. *)
Definition from_node (v : json) (e : Z * tag) : Prop :=
  exists node, reachable (JDict node) v /\ own_entry filter_config node e.

Definition visit_traces (v : json) : Prop :=
  forall m m', collect v m = Ok m' ->
  exists rs, Forall (from_node v) rs /\ emits (collect v) rs.

Lemma from_node_step (child parent : json) (e : Z * tag) :
  nested_in child parent -> from_node child e -> from_node parent e.
Proof.
  intros Hstep (node & Hreach & Hown). exists node. split; [|done].
  by apply (reachable_step _ child).
Qed.

Lemma collect_list_traces (items : list json) :
  Forall visit_traces items ->
  forall m m', collect (JList items) m = Ok m' ->
  exists rs, Forall (fun e => exists item, item ∈ items /\ from_node item e) rs
             /\ emits (collect (JList items)) rs.
Proof.
  induction 1 as [|item items Hitem _ IH]; intros m m'.
  - intros _. exists []. split; [constructor | by intros ?].
  - rewrite collect_list_cons.
    destruct (collect item m) as [m1|] eqn:Hm1; cbn [bind]; [|done].
    apply Hitem in Hm1 as (rs1 & Hrs1 & Hemit1).
    intros (rs2 & Hrs2 & Hemit2)%IH.
    exists (rs1 ++ rs2). split.
    + apply Forall_app. split.
      * eapply Forall_impl; [exact Hrs1|]. intros e He. exists item. split; [by left|done].
      * eapply Forall_impl; [exact Hrs2|]. intros e (x & Hx & He).
        exists x. split; [by right|done].
    + intros m0. rewrite collect_list_cons. by apply emits_bind.
Qed.

Lemma collect_traces (v : json) : visit_traces v.
Proof.
  induction v as [|b|n|s|items IH|fields IH] using json_induction;
    try (intros m m' _; exists []; split; [constructor | by intros ?]).
  - intros m m' (rs & Hrs & Hemit)%collect_list_traces; [|done].
    exists rs. split; [|done]. eapply Forall_impl; [exact Hrs|].
    intros e (item & Hin & He). apply (from_node_step item); [|done].
    by apply nested_item.
  - intros m m'. rewrite collect_dict.
    destruct (process_node fields m) as [m1|] eqn:Hm1; cbn [bind]; [|done].
    apply process_node_emits in Hm1 as (rs1 & Hrs1 & Hemit1).
    intros (rs2 & Hrs2 & Hemit2)%collect_list_traces; [|by apply Forall_fmap].
    exists (rs1 ++ rs2). split.
    + apply Forall_app. split.
      * apply Forall_forall. intros e He. exists fields.
        split; [apply rtc_refl | by apply Hrs1].
      * eapply Forall_impl; [exact Hrs2|].
        intros e (item & Hin & He). apply (from_node_step item); [|done].
        apply list_elem_of_fmap in Hin as ([k x] & -> & Hin).
        by apply (nested_value _ k).
    + intros m0. rewrite collect_dict. by apply emits_bind.
Qed.

(** Documents that follow the schema. *)
Lemma dict_get_in (key : string) (fields : list (string * json)) (v : json) :
  dict_get key fields = Some v -> (key, v) ∈ fields.
Proof.
  induction fields as [|[k x] fields IH]; [done|].
  cbn. destruct (String.eqb_spec key k) as [->|_].
  - intros [= ->]. by left.
  - intros ?%IH. by right.
Qed.

Lemma conforms_list (items : list json) :
  conforms (JList items) = true <-> Forall (fun v => conforms v = true) items.
Proof.
  induction items as [|x items IH]; [by split; [constructor|]|].
  change (conforms (JList (x :: items))) with (conforms x && conforms (JList items)).
  rewrite andb_true_iff, IH. split.
  - intros [? ?]. by constructor.
  - by inversion 1.
Qed.

Lemma conforms_dict (fields : list (string * json)) :
  conforms (JDict fields) = true ->
  hashable (get_or "kind" JNull fields) = true /\
  file_ok (get_or "file" (JStr "") fields) = true /\
  conforms (JList (values fields)) = true.
Proof.
  cbn [conforms]. intros [[Hk Hf]%andb_true_iff Hall]%andb_true_iff.
  split; [done|]. split; [done|]. clear Hk Hf. revert Hall.
  induction fields as [|[k x] d IH]; [done|].
  intros [Hx Hd]%andb_true_iff.
  change (conforms x && conforms (JList (values d)) = true).
  rewrite Hx. exact (IH Hd).
Qed.

Lemma conforms_get (key : string) (fields : list (string * json)) :
  conforms (JDict fields) = true -> conforms (get_or key JNull fields) = true.
Proof.
  intros (_ & _ & Hall)%conforms_dict. unfold get_or.
  destruct (dict_get key fields) as [v|] eqn:Hv; [|done].
  apply dict_get_in in Hv. apply conforms_list in Hall.
  apply (proj1 (Forall_forall _ _) Hall). unfold values.
  apply (list_elem_of_fmap_2 snd) in Hv. exact Hv.
Qed.

Lemma in_set_total (k : json) (l : list string) :
  hashable k = true -> exists b, in_set k l = Ok b.
Proof. destruct k; try done; intros _; by eexists. Qed.

Lemma should_include_total (k : json) :
  hashable k = true -> exists b, should_include_node k filter_config = Ok b.
Proof.
  intros Hk. unfold should_include_node.
  destruct (String.eqb filter_config "minimal"); [by apply in_set_total|].
  destruct (String.eqb filter_config "clean").
  { destruct (in_set_total k noise_nodes Hk) as [b ->]. by eexists. }
  destruct (String.eqb filter_config "declarations"); [by apply in_set_total|].
  destruct (String.eqb filter_config "statements"); [by apply in_set_total|].
  by eexists.
Qed.

Lemma register_total (n : Z) (k : json) (m : gmap Z (gset tag)) :
  hashable k = true -> exists m', register filter_config n k m = Ok m'.
Proof.
  intros Hk. unfold register, add_kind.
  destruct (should_include_total k Hk) as [[] ->]; cbn [bind]; [|by eexists].
  destruct k; try done; by eexists.
Qed.

Lemma process_location_total (loc k : json) (m : gmap Z (gset tag)) :
  hashable k = true -> conforms loc = true ->
  exists m', process_location loc k m = Ok m'.
Proof.
  intros Hk Hloc. unfold Engine.process_location.
  destruct loc as [| | | | |[|kv fields]]; eauto.
  apply conforms_dict in Hloc as (_ & Hfile & _).
  set (d := kv :: fields) in *.
  destruct (as_int _); [|eauto]. destruct (_ && _); [|eauto].
  destruct (negb _) eqn:Htruthy; [by apply register_total|].
  unfold file_ok in Hfile. rewrite Htruthy in Hfile. cbn in Hfile.
  destruct (get_or "file" (JStr "") d); try done.
  destruct (_ || _); [by apply register_total | eauto].
Qed.

Lemma process_node_total (node : list (string * json)) (m : gmap Z (gset tag)) :
  conforms (JDict node) = true -> exists m', process_node node m = Ok m'.
Proof.
  intros Hnode. pose proof (conforms_dict _ Hnode) as (Hk & _ & _).
  unfold Engine.process_node, process_loc, process_range.
  assert (exists m1, (if truthy (get_or "loc" JNull node)
                      then process_location (get_or "loc" JNull node)
                             (get_or "kind" JNull node) m
                      else Ok m) = Ok m1) as [m1 ->].
  { destruct (truthy _); [|eauto].
    apply process_location_total; [done | by apply conforms_get]. }
  cbn [bind]. pose proof (conforms_get "range" _ Hnode) as Hrange.
  destruct (get_or "range" JNull node) as [| | | | |[|kv r]]; eauto.
  set (range_info := kv :: r) in *.
  assert (exists m2, (if truthy (get_or "begin" JNull range_info)
                      then process_location (get_or "begin" JNull range_info)
                             (get_or "kind" JNull node) m1
                      else Ok m1) = Ok m2) as [m2 ->].
  { destruct (truthy _); [|eauto].
    apply process_location_total; [done | by apply conforms_get]. }
  cbn [bind]. destruct (_ && _); [|eauto].
  apply process_location_total; [done | by apply conforms_get].
Qed.

Lemma collect_list_total (items : list json) :
  Forall (fun v => conforms v = true -> forall m, exists m', collect v m = Ok m') items ->
  conforms (JList items) = true -> forall m, exists m', collect (JList items) m = Ok m'.
Proof.
  induction 1 as [|item items Hitem _ IH]; intros Hall m; [by eexists|].
  apply conforms_list in Hall. inversion Hall as [|? ? Hx Hrest]; subst.
  rewrite collect_list_cons. destruct (Hitem Hx m) as [m1 ->]. cbn [bind].
  apply IH. by apply conforms_list.
Qed.

(** What makes the engine raise. *)
Lemma register_unhashable (n : Z) (k : json) (m : gmap Z (gset tag)) :
  hashable k = false -> register filter_config n k m = Raise TypeError.
Proof.
  intros Hk. unfold register, should_include_node, add_kind.
  destruct k; try done;
    repeat match goal with
           | |- context [if ?c then _ else _] => destruct c
           end; reflexivity.
Qed.

Lemma process_location_unhashable (loc k : json) (n : Z) (m : gmap Z (gset tag)) :
  resolves target_file_path loc n -> truthy k = true -> hashable k = false ->
  process_location loc k m = Raise TypeError.
Proof.
  intros (fields & -> & Hline & Hn & Hfile) Hk Hhash.
  unfold Engine.process_location.
  destruct fields as [|kv fields]; [done|]. set (d := kv :: fields) in *.
  rewrite Hline, (as_int_truthy _ _ Hline), Hk.
  apply Z.eqb_neq in Hn. rewrite Hn. cbn [negb andb].
  destruct Hfile as [->|(f & -> & Hne & Hden)]; cbn [negb].
  - by apply register_unhashable.
  - cbn [truthy]. apply String.eqb_neq in Hne. rewrite Hne. cbn [negb].
    unfold denotes_target in Hden. rewrite Hden. by apply register_unhashable.
Qed.

(** A location whose file is neither absent nor a string. *)
Definition bad_file (loc : json) : Prop :=
  exists fields n,
    loc = JDict fields /\ as_int (get_or "line" JNull fields) = Some n /\ n <> 0 /\
    truthy (get_or "file" (JStr "") fields) = true /\
    forall f, get_or "file" (JStr "") fields <> JStr f.

Lemma process_location_bad_file (loc k : json) (m : gmap Z (gset tag)) :
  bad_file loc -> truthy k = true -> process_location loc k m = Raise TypeError.
Proof.
  intros (fields & n & -> & Hline & Hn & Hfile & Hstr) Hk.
  unfold Engine.process_location.
  destruct fields as [|kv fields]; [done|]. set (d := kv :: fields) in *.
  rewrite Hline, (as_int_truthy _ _ Hline), Hk, Hfile.
  apply Z.eqb_neq in Hn. rewrite Hn. cbn [negb andb].
  destruct (get_or "file" (JStr "") d) as [| | |f| |]; try done. by destruct (Hstr f).
Qed.

Lemma bad_file_truthy (loc : json) : bad_file loc -> truthy loc = true.
Proof. intros (fields & n & -> & Hline & _). by destruct fields. Qed.

(** A node raises when its location or the begin of its range does. *)
Lemma process_node_raises (node : list (string * json)) (m : gmap Z (gset tag)) :
  (forall m1, process_location (loc_of node) (kind_of node) m1 = Raise TypeError) /\
    truthy (loc_of node) = true
  \/ (forall m1, process_location (begin_of node) (kind_of node) m1 = Raise TypeError) /\
    truthy (begin_of node) = true ->
  process_node node m = Raise TypeError.
Proof.
  unfold Engine.process_node, process_loc, process_range.
  fold (loc_of node) (kind_of node).
  intros [[Hraise Htruthy]|[Hraise Htruthy]].
  - by rewrite Htruthy, Hraise.
  - destruct (if truthy (loc_of node) then _ else _) as [m1|[]]; cbn [bind]; [|done].
    unfold begin_of in *.
    destruct (get_or "range" JNull node) as [| | | | |[|kv r]]; try done.
    by rewrite Htruthy, Hraise.
Qed.

Lemma process_node_raise_everywhere (node : list (string * json))
    (m m2 : gmap Z (gset tag)) (e : exn) :
  process_node node m = Raise e -> process_node node m2 = Raise e.
Proof.
  intros Hm. destruct (process_node node m2) as [m2'|e2] eqn:Hm2; [|by destruct e, e2].
  destruct (process_node_emits _ _ node m2 m2' Hm2) as (rs & _ & Hemit).
  by rewrite Hemit in Hm.
Qed.

Lemma collect_raise_from_node (node : list (string * json)) (root : json)
    (m0 m : gmap Z (gset tag)) (e : exn) :
  reachable (JDict node) root ->
  process_node node m0 = Raise e ->
  collect root m = Raise e.
Proof.
  intros Hreach Hnode.
  destruct (collect root m) as [m'|e'] eqn:Hroot; [|by destruct e, e'].
  destruct (collect_reachable_included _ _ _ _ _ _ Hreach Hroot) as (mn & Hmn & _).
  rewrite collect_dict in Hmn.
  by rewrite (process_node_raise_everywhere _ _ ∅ _ Hnode) in Hmn.
Qed.

(** Two visits in either order. *)
Lemma collect_swap (x y : json) (m : gmap Z (gset tag))
    (k : gmap Z (gset tag) -> result (gmap Z (gset tag))) :
  (do m1 <- collect x m; do m2 <- collect y m1; k m2)
  = (do m1 <- collect y m; do m2 <- collect x m1; k m2).
Proof.
  destruct (collect x m) as [mx|ex] eqn:Hx, (collect y m) as [my|ey] eqn:Hy; cbn [bind].
  - destruct (collect_emits _ _ x m mx Hx) as (rx & _ & Hemx).
    destruct (collect_emits _ _ y m my Hy) as (ry & _ & Hemy).
    rewrite (emits_result _ _ _ _ Hemx Hx), (emits_result _ _ _ _ Hemy Hy).
    rewrite Hemx, Hemy. cbn [bind]. rewrite <- !add_all_app.
    f_equal. apply add_all_ext. intros e. rewrite !elem_of_app. tauto.
  - by rewrite (collect_raise_everywhere y m mx ey Hy).
  - by rewrite (collect_raise_everywhere x m my ex Hx).
  - by destruct ex, ey.
Qed.

End WithTarget.

End EngineMore.

Section CorrelationMore.
Import Py Filter Engine Locations EngineFacts Schema EngineMore.
Context `{OsPath}.
Variable target_file_path : string.
Variable filter_config : string.

Local Abbreviation process_location := (process_location target_file_path filter_config).
Local Abbreviation process_node := (process_node target_file_path filter_config).
Local Abbreviation collect := (collect_line_annotations target_file_path filter_config).

(** X8.  The engine only adds to the map it is given: the tags of every
    line after a visit are those before it together with those the same
    visit puts into an empty map; and a visit that raises from one map
    raises from every map. *)
Theorem traversal_additive (v : json) :
  (forall m m', collect v m = Ok m' ->
     exists own, collect v ∅ = Ok own /\
       forall L, tags_at m' L = tags_at m L ∪ tags_at own L) /\
  (forall m e, collect v m = Raise e -> forall m2, collect v m2 = Raise e).
Proof.
  split.
  - intros m m' Hm. destruct (collect_emits _ _ v m m' Hm) as (rs & _ & Hemit).
    exists (add_all ∅ rs). split; [apply Hemit|]. intros L.
    rewrite (emits_result _ _ _ _ Hemit Hm). apply set_eq. intros t.
    rewrite elem_of_union, !elem_of_add_all.
    split; [intros [?|?]; auto|]. intros [?|[Hempty|?]]; auto.
    by apply not_elem_of_empty in Hempty.
  - intros m e Hm m2. by apply (collect_raise_everywhere _ _ v m).
Qed.

(** X9.  Every tag of the result has a source: a tag on line [L] is the
    kind of a dict of the document, reached from the root, that has [L]
    as the line of its location or of the begin or the end of its range. *)
Theorem tags_come_from_nodes (root : json) (line_map : gmap Z (gset tag))
    (L : Z) (t : tag) :
  collect root ∅ = Ok line_map ->
  t ∈ tags_at line_map L ->
  exists node,
    reachable (JDict node) root /\
    hash_key (kind_of node) = Ok t /\ truthy (kind_of node) = true /\
    (line_of (loc_of node) = Some L \/ line_of (begin_of node) = Some L
     \/ line_of (end_of node) = Some L).
Proof.
  intros Hm Ht. destruct (collect_traces _ _ root ∅ line_map Hm) as (rs & Hrs & Hemit).
  rewrite (emits_result _ _ _ _ Hemit Hm) in Ht.
  apply elem_of_add_all in Ht as [Ht|Ht]; [by apply not_elem_of_empty in Ht|].
  destruct (proj1 (Forall_forall _ _) Hrs _ Ht) as (node & Hreach & Hown).
  destruct Hown as (Hline & _ & Hk & Hkey & _). by exists node.
Qed.

(** X10.  The result has no empty entry: every key of the map is a line
    other than zero, its set is not empty, and no tag in it is a value
    that counts as false. *)
Theorem no_empty_entries (root : json) (line_map : gmap Z (gset tag))
    (L : Z) (X : gset tag) :
  collect root ∅ = Ok line_map ->
  line_map !! L = Some X ->
  L <> 0 /\ X <> ∅ /\ forall t, t ∈ X -> truthy (tag_value t) = true.
Proof.
  intros Hm HX. destruct (collect_traces _ _ root ∅ line_map Hm) as (rs & Hrs & Hemit).
  pose proof (emits_result _ _ _ _ Hemit Hm) as ->.
  assert (forall t, t ∈ X -> (L, t) ∈ rs) as Hin.
  { intros t Ht. assert (t ∈ tags_at (add_all ∅ rs) L) as Ht'.
    { unfold tags_at. by rewrite HX. }
    apply elem_of_add_all in Ht' as [Ht'|Ht']; [by apply not_elem_of_empty in Ht'|done]. }
  assert (exists t, (L, t) ∈ rs) as [t0 Ht0].
  { assert (is_Some (add_all ∅ rs !! L)) as Hsome by by rewrite HX.
    apply is_Some_add_all in Hsome as [Hsome|?]; [|done].
    rewrite lookup_empty in Hsome. by destruct Hsome. }
  assert (forall t, (L, t) ∈ rs -> L <> 0 /\ truthy (tag_value t) = true) as Hentry.
  { intros t Ht. destruct (proj1 (Forall_forall _ _) Hrs _ Ht) as (node & _ & Hown).
    destruct Hown as (_ & Hne & Hk & Hkey & _). split; [done|].
    cbn in Hkey. destruct (kind_of node) as [|[]| | | |]; try done;
      injection Hkey as <-; done. }
  split; [by destruct (Hentry t0 Ht0)|]. split.
  - intros ->. assert (t0 ∈ tags_at (add_all ∅ rs) L) as Ht.
    { apply elem_of_add_all. by right. }
    unfold tags_at in Ht. rewrite HX in Ht. by apply not_elem_of_empty in Ht.
  - intros t Ht. by destruct (Hentry t (Hin t Ht)).
Qed.

(** X11.  The order of the elements of a list does not matter: visiting
    the same elements in another order returns the same map, or raises
    as well. *)
Theorem sibling_order_irrelevant (items items' : list json) (m : gmap Z (gset tag)) :
  items ≡ₚ items' ->
  collect (JList items) m = collect (JList items') m.
Proof.
  intros Hperm. revert m.
  induction Hperm as [|x l l' _ IH|x y l|l1 l2 l3 _ IH1 _ IH2]; intros m.
  - done.
  - rewrite !collect_list_cons. destruct (collect x m); cbn [bind]; [apply IH|done].
  - rewrite !collect_list_cons.
    transitivity (do m1 <- collect y m; do m2 <- collect x m1; collect (JList l) m2).
    + destruct (collect y m); cbn [bind]; [|done]. by rewrite collect_list_cons.
    + rewrite collect_swap. destruct (collect x m); cbn [bind]; [|done].
      by rewrite collect_list_cons.
  - by rewrite IH1, IH2.
Qed.

(** X12.  Visiting a document again changes nothing: from the map a
    visit returned, the same visit returns that map. *)
Theorem traversal_idempotent (v : json) (m m' : gmap Z (gset tag)) :
  collect v m = Ok m' -> collect v m' = Ok m'.
Proof.
  intros Hm. destruct (collect_emits _ _ v m m' Hm) as (rs & _ & Hemit).
  rewrite Hemit. f_equal. rewrite (emits_result _ _ _ _ Hemit Hm), <- add_all_app.
  apply add_all_ext. intros e. rewrite elem_of_app. tauto.
Qed.

(** The steps of the embedding on a conforming document: none of them
    is one that raises. *)
Lemma conforming_steps (v : json) :
  conforms v = true -> forall m, exists m', collect v m = Ok m'.
Proof.
  induction v as [|b|n|s|items IH|fields IH] using json_induction;
    intros Hv m; try by eexists.
  - by apply collect_list_total.
  - rewrite collect_dict.
    destruct (process_node_total target_file_path filter_config fields m Hv)
      as [m1 ->]. cbn [bind].
    apply collect_list_total; [by apply Forall_fmap|].
    by apply conforms_dict in Hv as (_ & _ & ?).
Qed.

(** X13.  On a document in which every "kind" is hashable and every
    "file" is a string or counts as absent, the engine raises no
    [TypeError], whatever the profile, the target and the starting map.
    The statement is about [TypeError] alone: a document nested deeper
    than the interpreter allows calls still ends in [RecursionError],
    which is no result of the embedding. *)
Theorem conforming_document_no_type_error (v : json) (m : gmap Z (gset tag)) :
  conforms v = true -> collect v m <> Raise TypeError.
Proof.
  intros Hv Hraise. destruct (conforming_steps v Hv m) as [m' Hm]. congruence.
Qed.

(** X14.  A kind that is a non-empty list or dict makes the engine raise
    [TypeError], under every profile, as soon as the node is reached with
    a location, or the begin of a range, that resolves. *)
Theorem unhashable_kind_raises (root : json) (node : list (string * json))
    (n : Z) (m : gmap Z (gset tag)) :
  reachable (JDict node) root ->
  hashable (kind_of node) = false -> truthy (kind_of node) = true ->
  resolves target_file_path (loc_of node) n
  \/ resolves target_file_path (begin_of node) n ->
  collect root m = Raise TypeError.
Proof.
  intros Hreach Hhash Hk Hres.
  apply (collect_raise_from_node _ _ node root ∅ m TypeError Hreach).
  apply process_node_raises. destruct Hres as [Hres|Hres]; [left|right];
    (split; [|by apply (resolves_truthy _ _ _ Hres)]);
    intros m1; by apply (process_location_unhashable _ _ _ _ n).
Qed.

(** X15.  A "file" that is neither a string nor a value that counts as
    absent makes the engine raise [TypeError], in the location of a node
    or the begin of its range, when the location has a line and the node
    a kind. *)
Theorem non_string_file_raises (root : json) (node : list (string * json))
    (m : gmap Z (gset tag)) :
  reachable (JDict node) root ->
  truthy (kind_of node) = true ->
  bad_file (loc_of node) \/ bad_file (begin_of node) ->
  collect root m = Raise TypeError.
Proof.
  intros Hreach Hk Hbad.
  apply (collect_raise_from_node _ _ node root ∅ m TypeError Hreach).
  apply process_node_raises. destruct Hbad as [Hbad|Hbad]; [left|right];
    (split; [|by apply bad_file_truthy]);
    intros m1; by apply process_location_bad_file.
Qed.

(** X16.  The ownership test is the comparison of the last components
    alone: the comparison of the whole paths never decides, so a file of
    the same name in another directory is taken for the target. *)
Theorem ownership_is_basename (file_path : string) :
  denotes_target target_file_path file_path
  = String.eqb
      (basename (if isabs file_path then abspath file_path else file_path))
      (basename (abspath target_file_path)).
Proof.
  unfold denotes_target.
  destruct (String.eqb_spec (if isabs file_path then abspath file_path else file_path)
              (abspath target_file_path)) as [->|_]; [|done].
  by rewrite String.eqb_refl.
Qed.

(** X17.  A node without a kind, or with a kind that counts as false,
    registers nothing and raises nothing, whatever its location and range
    hold; and a location whose line is missing, zero or not an integer
    registers nothing for any kind. *)
Theorem nothing_without_kind_or_line :
  (forall node m, truthy (kind_of node) = false -> process_node node m = Ok m) /\
  (forall loc kind m,
     line_of loc = None \/ line_of loc = Some 0 -> process_location loc kind m = Ok m).
Proof.
  assert (forall loc kind m,
            truthy kind = false \/ line_of loc = None \/ line_of loc = Some 0 ->
            process_location loc kind m = Ok m) as Hloc.
  { intros loc kind m Hno. unfold Engine.process_location.
    destruct loc as [| | | | |[|kv fields]]; try done. cbn [line_of] in Hno.
    destruct (as_int _) as [n|] eqn:Hline; [|done].
    rewrite (as_int_truthy _ _ Hline).
    destruct Hno as [->|[?|[= ->]]]; [by rewrite andb_false_r|done..]. }
  split.
  - intros node m Hk.
    unfold Engine.process_node, process_loc, process_range. fold (kind_of node).
    assert ((if truthy (get_or "loc" JNull node)
             then process_location (get_or "loc" JNull node) (kind_of node) m
             else Ok m) = Ok m) as ->.
    { destruct (truthy (get_or "loc" JNull node)); [|done]. apply Hloc. by left. }
    cbn [bind]. destruct (get_or "range" JNull node) as [| | | | |[|kv r]]; try done.
    set (range_info := kv :: r).
    assert ((if truthy (get_or "begin" JNull range_info)
             then process_location (get_or "begin" JNull range_info) (kind_of node) m
             else Ok m) = Ok m) as ->.
    { destruct (truthy (get_or "begin" JNull range_info)); [|done].
      apply Hloc. by left. }
    cbn [bind]. destruct (_ && _); [|done]. apply Hloc. by left.
  - intros loc kind m Hno. apply Hloc. by right.
Qed.

End CorrelationMore.

Section CorrelationMoreExamples.
Import Py Filter Engine Locations EngineFacts Schema EngineMore Samples.

Lemma tags_come_from_nodes_witness :
  collect_line_annotations (H := unix) "/work/a.cpp" "clean" var_decl ∅
  = Ok (add_all ∅ [(2, TStr "VarDecl"); (2, TStr "IntegerLiteral")]) /\
  TStr "IntegerLiteral"
    ∈ tags_at (add_all ∅ [(2, TStr "VarDecl"); (2, TStr "IntegerLiteral")]) 2 /\
  exists node,
    reachable (JDict node) var_decl /\
    hash_key (kind_of node) = Ok (TStr "IntegerLiteral") /\
    truthy (kind_of node) = true /\
    (line_of (loc_of node) = Some 2 \/ line_of (begin_of node) = Some 2
     \/ line_of (end_of node) = Some 2).
Proof.
  assert (collect_line_annotations (H := unix) "/work/a.cpp" "clean" var_decl ∅
          = Ok (add_all ∅ [(2, TStr "VarDecl"); (2, TStr "IntegerLiteral")])) as Hm
    by (vm_compute; reflexivity).
  assert (TStr "IntegerLiteral"
            ∈ tags_at (add_all ∅ [(2, TStr "VarDecl"); (2, TStr "IntegerLiteral")]) 2) as Ht
    by (apply elem_of_add_all; right; repeat constructor).
  exact (conj Hm (conj Ht (tags_come_from_nodes _ _ _ _ _ _ Hm Ht))).
Defined.

Lemma no_empty_entries_witness :
  collect_line_annotations (H := unix) "/work/a.cpp" "clean" var_decl ∅
  = Ok (add_all ∅ [(2, TStr "VarDecl"); (2, TStr "IntegerLiteral")]) /\
  add_all ∅ [(2, TStr "VarDecl"); (2, TStr "IntegerLiteral")] !! 2
  = Some (tags_at (add_all ∅ [(2, TStr "VarDecl"); (2, TStr "IntegerLiteral")]) 2) /\
  2 <> 0 /\
  tags_at (add_all ∅ [(2, TStr "VarDecl"); (2, TStr "IntegerLiteral")]) 2 <> ∅.
Proof.
  assert (collect_line_annotations (H := unix) "/work/a.cpp" "clean" var_decl ∅
          = Ok (add_all ∅ [(2, TStr "VarDecl"); (2, TStr "IntegerLiteral")])) as Hm
    by (vm_compute; reflexivity).
  assert (add_all ∅ [(2, TStr "VarDecl"); (2, TStr "IntegerLiteral")] !! 2
          = Some (tags_at (add_all ∅ [(2, TStr "VarDecl"); (2, TStr "IntegerLiteral")]) 2))
    as HX by (vm_compute; reflexivity).
  destruct (no_empty_entries _ _ _ _ _ _ Hm HX) as (Hline & Hset & _).
  exact (conj Hm (conj HX (conj Hline Hset))).
Defined.

Lemma sibling_order_irrelevant_witness :
  [literal; var_decl] ≡ₚ [var_decl; literal] /\
  collect_line_annotations (H := unix) "/work/a.cpp" "clean" (JList [literal; var_decl]) ∅
  = collect_line_annotations (H := unix) "/work/a.cpp" "clean" (JList [var_decl; literal]) ∅.
Proof.
  assert ([literal; var_decl] ≡ₚ [var_decl; literal]) as Hperm by apply perm_swap.
  exact (conj Hperm (sibling_order_irrelevant "/work/a.cpp" "clean" _ _ ∅ Hperm)).
Defined.

Lemma traversal_idempotent_witness :
  collect_line_annotations (H := unix) "/work/a.cpp" "clean" var_decl ∅
  = Ok (add_all ∅ [(2, TStr "VarDecl"); (2, TStr "IntegerLiteral")]) /\
  collect_line_annotations (H := unix) "/work/a.cpp" "clean" var_decl
    (add_all ∅ [(2, TStr "VarDecl"); (2, TStr "IntegerLiteral")])
  = Ok (add_all ∅ [(2, TStr "VarDecl"); (2, TStr "IntegerLiteral")]).
Proof.
  assert (collect_line_annotations (H := unix) "/work/a.cpp" "clean" var_decl ∅
          = Ok (add_all ∅ [(2, TStr "VarDecl"); (2, TStr "IntegerLiteral")])) as Hm
    by (vm_compute; reflexivity).
  exact (conj Hm (traversal_idempotent _ _ _ _ _ Hm)).
Defined.

Lemma conforming_document_no_type_error_witness :
  conforms var_decl = true /\
  collect_line_annotations (H := unix) "/work/a.cpp" "minimal" var_decl ∅
  <> Raise TypeError.
Proof.
  assert (conforms var_decl = true) as Hv by reflexivity.
  exact (conj Hv (conforming_document_no_type_error "/work/a.cpp" "minimal" var_decl ∅ Hv)).
Defined.

Lemma unhashable_kind_raises_witness :
  collect_line_annotations (H := unix) "/work/a.cpp" "all"
    (JList [JDict [("kind", JList [JStr "VarDecl"]); ("loc", at_line 3 1)]]) ∅
  = Raise TypeError.
Proof.
  apply (unhashable_kind_raises "/work/a.cpp" "all" _
           [("kind", JList [JStr "VarDecl"]); ("loc", at_line 3 1)] 3 ∅);
    [|reflexivity|reflexivity|].
  - eapply rtc_l; [apply nested_item; repeat constructor | apply rtc_refl].
  - left. by apply resolves_at_line.
Defined.

Lemma non_string_file_raises_witness :
  collect_line_annotations (H := unix) "/work/a.cpp" "clean"
    (JList [JDict [("kind", JStr "VarDecl");
                   ("loc", JDict [("file", JInt 7); ("line", JInt 3)])]]) ∅
  = Raise TypeError.
Proof.
  apply (non_string_file_raises "/work/a.cpp" "clean" _
           [("kind", JStr "VarDecl");
            ("loc", JDict [("file", JInt 7); ("line", JInt 3)])] ∅);
    [|reflexivity|].
  - eapply rtc_l; [apply nested_item; repeat constructor | apply rtc_refl].
  - left. exists [("file", JInt 7); ("line", JInt 3)], 3.
    repeat split; try reflexivity; discriminate.
Defined.

End CorrelationMoreExamples.

(** ** The display *)

Module RenderFacts.
Import PyStr Render.

Lemma length_app_str (s t : string) :
  String.length (s +:+ t) = (String.length s + String.length t)%nat.
Proof.
  induction s as [|c s IH]; [done|].
  change (S (String.length (s +:+ t)) = S (String.length s + String.length t)).
  by rewrite IH.
Qed.

Lemma length_spaces (k : nat) : String.length (String.concat "" (repeat " " k)) = k.
Proof.
  induction k as [|k IH]; [done|].
  destruct k as [|k]; [done|].
  change (String.length (" " +:+ "" +:+ String.concat "" (repeat " " (S k))) = S (S k)).
  rewrite !length_app_str, IH. done.
Qed.

(** The number of digits grows with the number. *)
Lemma pretty_N_go_length (x : N) (s : string) :
  String.length (pretty_N_go x s)
  = (String.length (pretty_N_go x "") + String.length s)%nat.
Proof.
  revert s. induction (N.lt_wf_0 x) as [x _ IH]; intros s.
  destruct (decide (x = 0)%N) as [->|Hx]; [by rewrite !pretty_N_go_0|].
  assert (0 < x)%N as Hpos by lia.
  assert (x `div` 10 < x)%N as Hlt by (by apply N.div_lt).
  rewrite !(pretty_N_go_step x) by done.
  rewrite (IH _ Hlt (String _ s)), (IH _ Hlt (String _ "")).
  cbn [String.length]. lia.
Qed.

Lemma pretty_N_go_mono (x y : N) :
  (x <= y)%N ->
  (String.length (pretty_N_go x "") <= String.length (pretty_N_go y ""))%nat.
Proof.
  revert x. induction (N.lt_wf_0 y) as [y _ IH]; intros x Hxy.
  destruct (decide (x = 0)%N) as [->|Hx]; [rewrite pretty_N_go_0; cbn; lia|].
  assert (0 < x)%N as Hxpos by lia. assert (0 < y)%N as Hypos by lia.
  rewrite (pretty_N_go_step x), (pretty_N_go_step y) by done.
  rewrite (pretty_N_go_length (x `div` 10)), (pretty_N_go_length (y `div` 10)).
  cbn [String.length].
  assert (String.length (pretty_N_go (x `div` 10) "")
          <= String.length (pretty_N_go (y `div` 10) ""))%nat; [|lia].
  apply IH; [by apply N.div_lt|]. by apply N.Div0.div_le_mono.
Qed.

Lemma pretty_Z_pos (z : Z) :
  0 < z -> pretty z = pretty_N_go (Z.to_N z) "".
Proof. destruct z as [|p|p]; try lia. intros _. reflexivity. Qed.

Lemma pretty_Z_length_mono (i n : Z) :
  0 < i <= n -> (String.length (pretty i) <= String.length (pretty n))%nat.
Proof.
  intros [Hi Hin]. rewrite (pretty_Z_pos i), (pretty_Z_pos n) by lia.
  apply pretty_N_go_mono. lia.
Qed.

End RenderFacts.

Section RenderMore.
Import PyStr Render RenderFacts.

(** X18.  Truncation of the kinds of a line, for a limit that is not
    negative: a list within the limit is shown whole; a longer one is cut
    to its first [max_annotations] kinds followed by one sentinel that
    counts the kinds left out, so that at most [max_annotations + 1]
    items are shown and shown plus counted is the number of kinds. *)
Theorem displayed_kinds_truncation (sorted_kinds : list string) (max_annotations : Z) :
  0 <= max_annotations ->
  (Z.of_nat (length sorted_kinds) <= max_annotations ->
   displayed_kinds sorted_kinds max_annotations = sorted_kinds) /\
  (max_annotations < Z.of_nat (length sorted_kinds) ->
   displayed_kinds sorted_kinds max_annotations
   = take (Z.to_nat max_annotations) sorted_kinds
     ++ ["... +" +:+ pretty (Z.of_nat (length sorted_kinds) - max_annotations)
         +:+ " more"] /\
   length (displayed_kinds sorted_kinds max_annotations)
   = S (Z.to_nat max_annotations) /\
   Z.of_nat (length (take (Z.to_nat max_annotations) sorted_kinds))
   + (Z.of_nat (length sorted_kinds) - max_annotations)
   = Z.of_nat (length sorted_kinds)).
Proof.
  intros Hmax. unfold displayed_kinds, slice_to. split.
  - intros Hle. destruct (Z.gtb_spec (Z.of_nat (length sorted_kinds)) max_annotations);
      [lia|done].
  - intros Hlt. destruct (Z.gtb_spec (Z.of_nat (length sorted_kinds)) max_annotations);
      [|lia].
    destruct (Z.leb_spec 0 max_annotations); [|lia].
    split; [done|]. rewrite length_app, length_take. cbn [length]. lia.
Qed.

Lemma displayed_kinds_truncation_witness :
  displayed_kinds ["CallExpr"; "DeclRefExpr"; "ImplicitCastExpr"; "VarDecl"] 2
  = ["CallExpr"; "DeclRefExpr"; "... +2 more"] /\
  displayed_kinds ["CallExpr"; "DeclRefExpr"] 2 = ["CallExpr"; "DeclRefExpr"].
Proof.
  split.
  - apply (displayed_kinds_truncation
             ["CallExpr"; "DeclRefExpr"; "ImplicitCastExpr"; "VarDecl"] 2); cbn; lia.
  - apply (displayed_kinds_truncation ["CallExpr"; "DeclRefExpr"] 2); cbn; lia.
Defined.

(** X19.  With a negative limit every line is truncated: the kinds shown
    are the list without its last [-max_annotations] kinds, and the
    sentinel counts more kinds than the list has. *)
Theorem displayed_kinds_negative_limit (sorted_kinds : list string) (max_annotations : Z) :
  max_annotations < 0 ->
  displayed_kinds sorted_kinds max_annotations
  = take (Z.to_nat (Z.of_nat (length sorted_kinds) + max_annotations)) sorted_kinds
    ++ ["... +" +:+ pretty (Z.of_nat (length sorted_kinds) - max_annotations)
        +:+ " more"] /\
  Z.of_nat (length sorted_kinds)
  < Z.of_nat (length sorted_kinds) - max_annotations.
Proof.
  intros Hneg. unfold displayed_kinds, slice_to.
  destruct (Z.gtb_spec (Z.of_nat (length sorted_kinds)) max_annotations); [|lia].
  destruct (Z.leb_spec 0 max_annotations); [lia|]. split; [done|lia].
Qed.

Lemma displayed_kinds_negative_limit_witness :
  displayed_kinds ["CallExpr"; "DeclRefExpr"; "VarDecl"] (-1)
  = ["CallExpr"; "DeclRefExpr"; "... +4 more"].
Proof.
  apply (displayed_kinds_negative_limit ["CallExpr"; "DeclRefExpr"; "VarDecl"] (-1)). lia.
Defined.

(** X20.  The line numbers are of fixed width: for a file of [n_lines]
    lines, the prefix of every line from 1 to [n_lines] has one character
    more than the decimal writing of [n_lines]. *)
Theorem line_num_str_fixed_width (n_lines : nat) (i : Z) :
  1 <= i <= Z.of_nat n_lines ->
  String.length (line_num_str (max_line_num_width n_lines) i)
  = S (max_line_num_width n_lines).
Proof.
  intros Hi. unfold line_num_str, max_line_num_width.
  rewrite !length_app_str, length_spaces. cbn [String.length].
  pose proof (pretty_Z_length_mono i (Z.of_nat n_lines) ltac:(lia)). lia.
Qed.

Lemma line_num_str_fixed_width_witness :
  String.length (line_num_str (max_line_num_width 120) 7) = 4%nat /\
  line_num_str (max_line_num_width 120) 7 = "  7 ".
Proof.
  split; [|reflexivity].
  apply (line_num_str_fixed_width 120 7). lia.
Defined.

End RenderMore.
